(** * BlogGenerat: the title / draft / review / verdict workflow of [app.py]

    A shallow embedding of the four node functions, the router and the graph
    built by [init_graph], followed by the properties of the workflow.

    Modelling conventions.
    - A Python [str] is a Rocq [string] holding its UTF-8 bytes.  [upper]
      follows Python's full case mapping wherever an ASCII letter comes in
      or out (the ASCII letters, and the seventeen characters such as the
      sharp s whose upper case holds ASCII letters); the white space that
      [strip] removes is Python's on the code points below 128.
    - [BlogState] is a [TypedDict] with five fixed keys: a record.
    - The node functions mutate the one state dict in place and call the
      language model in between, which may raise: they live in a state and
      exception monad [M] whose store survives a raise.
    - The language model is an oracle: given the number of calls made so far
      and the prompt, a reply or a failure.  Every prompt sent is logged.
    - The graph is run by the LangGraph library, which is not part of the
      program: [graph_invoke] runs one node at a time along the edges that
      [init_graph] declares, hands each node the state the previous one left,
      and has no handler and no retry policy, as none is given to [add_node].
      Its fuel is the number of steps that the engine allows, and [Pending]
      is the run cut short when they are used up.  [Run] shows the state of
      the engine however the run stops; [invoke_graph] is what the caller
      gets: the final state after END, an exception and no state otherwise.
      The two lists are declared with the [add_messages] reducer, which merges
      by message id; a node returns the very messages of the state plus the one
      it appended, so the merge leaves each list as the node left it.
    - The [st.status], [st.write] and [st.markdown] calls only display text and
      are left out. *)

From Stdlib Require Import String Ascii List Bool Arith Lia.
From Stdlib Require Import ZArith.
Import ListNotations.
Open Scope string_scope.

(** ** Text: the [str] methods the node functions use *)

Module Text.

Definition quote : ascii := "034"%char.
Definition newline : ascii := "010"%char.

(** [str.isspace] on one character: tab to carriage return, the four
    separators 28..31, and the space. *)
Definition is_space (c : ascii) : bool :=
  let n := nat_of_ascii c in
  (((9 <=? n) && (n <=? 13)) || ((28 <=? n) && (n <=? 32)))%nat.

Definition is_quote (c : ascii) : bool := Ascii.eqb c quote.

Definition upper_char (c : ascii) : ascii :=
  let n := nat_of_ascii c in
  if ((97 <=? n) && (n <=? 122))%nat then ascii_of_nat (n - 32) else c.


(** The characters outside ASCII whose upper case holds an ASCII letter, each
    with its upper case: the sharp s, the dotless i, the n after an
    apostrophe, the long s, the j with caron, four letters with a mark below
    or above, the a with a half ring, and the seven Latin ligatures.  They
    are written here as their UTF-8 bytes, two or three each. *)
Definition special_cases : list (string * string) :=
  [ ("ß", "SS"); ("ı", "I"); ("ŉ", "ʼN"); ("ſ", "S"); ("ǰ", "J̌");
    ("ẖ", "H̱"); ("ẗ", "T̈"); ("ẘ", "W̊"); ("ẙ", "Y̊"); ("ẚ", "Aʾ");
    ("ﬀ", "FF"); ("ﬁ", "FI"); ("ﬂ", "FL"); ("ﬃ", "FFI"); ("ﬄ", "FFL");
    ("ﬅ", "ST"); ("ﬆ", "ST") ].

Fixpoint special_upper_in (table : list (string * string)) (key : string)
  : option string :=
  match table with
  | [] => None
  | (k, u) :: table' =>
      if String.eqb key k then Some u else special_upper_in table' key
  end.

Definition special_upper (key : string) : option string :=
  special_upper_in special_cases key.

(** [s.upper()], on the UTF-8 bytes of [s]: an ASCII letter goes to its
    capital, each character of [special_cases] to its upper case, and every
    other byte is kept.  The characters that this leaves as they are and that
    Python changes (an accented letter to its capital) are outside ASCII
    before and after, so both results hold the same ASCII bytes at the same
    places between them. *)
Fixpoint upper (s : string) : string :=
  match s with
  | EmptyString => EmptyString
  | String c s1 =>
      match s1 with
      | EmptyString => String (upper_char c) EmptyString
      | String c1 s2 =>
          match special_upper (String c (String c1 EmptyString)) with
          | Some u => u ++ upper s2
          | None =>
              match s2 with
              | EmptyString => String (upper_char c) (upper s1)
              | String c2 s3 =>
                  match special_upper
                          (String c (String c1 (String c2 EmptyString))) with
                  | Some u => u ++ upper s3
                  | None => String (upper_char c) (upper s1)
                  end
              end
          end
      end
  end.


Fixpoint lstrip (p : ascii -> bool) (s : string) : string :=
  match s with
  | EmptyString => EmptyString
  | String c s' => if p c then lstrip p s' else s
  end.

Fixpoint rstrip (p : ascii -> bool) (s : string) : string :=
  match s with
  | EmptyString => EmptyString
  | String c s' =>
      match rstrip p s' with
      | EmptyString => if p c then EmptyString else String c EmptyString
      | t => String c t
      end
  end.

(** [s.strip()] with [p := is_space], and [s.strip(q)] for the one-character
    string [q] of a double quote with [p := is_quote]: the characters of the
    class are dropped at both ends. *)
Definition strip (p : ascii -> bool) (s : string) : string :=
  rstrip p (lstrip p s).

(** [s.split("\n")[0]]: the text before the first newline. *)
Fixpoint first_line (s : string) : string :=
  match s with
  | EmptyString => EmptyString
  | String c s' =>
      if Ascii.eqb c newline then EmptyString else String c (first_line s')
  end.

Fixpoint startswith (needle hay : string) : bool :=
  match needle, hay with
  | EmptyString, _ => true
  | String _ _, EmptyString => false
  | String a n', String b h' => Ascii.eqb a b && startswith n' h'
  end.

(** [needle in hay] *)
Fixpoint contains (needle hay : string) : bool :=
  startswith needle hay ||
  match hay with
  | EmptyString => false
  | String _ h' => contains needle h'
  end.

End Text.

(** ** Messages and the workflow state *)

(** [AIMessage(content=...)] and [HumanMessage(content=...)]. *)
Inductive Message : Type :=
| AIMessage (text : string)
| HumanMessage (text : string).

Definition content (m : Message) : string :=
  match m with AIMessage t => t | HumanMessage t => t end.

Record BlogState : Type := mkBlogState {
  topic : string;
  title : string;
  blog_content : list Message;
  reviewed_content : list Message;
  is_blog_ready : string
}.

(** ** The state and exception monad *)

Inductive exn : Type :=
| ServiceError   (* [llm.invoke] raised *)
| IndexError     (* [l[-1]] on an empty list *)
| KeyError.      (* the router's answer is no key of the branch table *)

Inductive res (A : Type) : Type :=
| Ret (a : A)
| Raise (e : exn).
Arguments Ret {A} a.
Arguments Raise {A} e.

(** The store: the state dict, and the prompts sent to the model so far. *)
Record World : Type := mkWorld {
  state : BlogState;
  sent : list string
}.

Definition M (A : Type) : Type := World -> res A * World.

Definition ret {A} (a : A) : M A := fun w => (Ret a, w).

Definition raise {A} (e : exn) : M A := fun w => (Raise e, w).

Definition bind {A B} (m : M A) (k : A -> M B) : M B :=
  fun w =>
    match m w with
    | (Ret a, w') => k a w'
    | (Raise e, w') => (Raise e, w')
    end.

Notation "x <- m ;; k" := (bind m (fun x => k))
  (at level 61, m at next level, right associativity).
Notation "m ;; k" := (bind m (fun _ => k))
  (at level 61, right associativity).

Definition get {A} (field : BlogState -> A) : M A :=
  fun w => (Ret (field (state w)), w).

Definition modify (f : BlogState -> BlogState) : M unit :=
  fun w => (Ret tt, mkWorld (f (state w)) (sent w)).

(** [state["title"] = t] *)
Definition set_title (t : string) : M unit :=
  modify (fun s => mkBlogState (topic s) t (blog_content s)
                               (reviewed_content s) (is_blog_ready s)).

(** [state["is_blog_ready"] = v] *)
Definition set_is_blog_ready (v : string) : M unit :=
  modify (fun s => mkBlogState (topic s) (title s) (blog_content s)
                               (reviewed_content s) v).

(** [state["blog_content"].append(m)] *)
Definition append_blog_content (m : Message) : M unit :=
  modify (fun s => mkBlogState (topic s) (title s) (blog_content s ++ [m])
                               (reviewed_content s) (is_blog_ready s)).

(** [state["reviewed_content"].append(m)] *)
Definition append_reviewed_content (m : Message) : M unit :=
  modify (fun s => mkBlogState (topic s) (title s) (blog_content s)
                               (reviewed_content s ++ [m]) (is_blog_ready s)).

(** [l[-1]] *)
Fixpoint last_item (l : list Message) : option Message :=
  match l with
  | [] => None
  | [m] => Some m
  | _ :: l' => last_item l'
  end.

Definition last_content (field : BlogState -> list Message) : M string :=
  l <- get field ;;
  match last_item l with
  | Some m => ret (content m)
  | None => raise IndexError
  end.

(** The language model: call number and prompt to reply, [None] when the
    call raises. *)
Definition LLM : Type := nat -> string -> option string.

(** [llm.invoke(prompt).content] *)
Definition invoke (llm : LLM) (prompt : string) : M string :=
  fun w =>
    let w' := mkWorld (state w) (sent w ++ [prompt]) in
    match llm (length (sent w)) prompt with
    | Some reply => (Ret reply, w')
    | None => (Raise ServiceError, w')
    end.

(** ** The prompts *)

Definition title_prompt (topic : string) : string :=
  "Generate compelling blog title options about " ++ topic ++ " that are:
    - SEO-friendly
    - Attention-grabbing
    - Between 6-12 words".

Definition content_prompt (title : string) : string :=
  "Write a comprehensive blog post titled " ++ String Text.quote title
  ++ String Text.quote " with:
    1. Engaging introduction with hook
    2. 3-5 subheadings with detailed content
    3. Practical examples/statistics
    4. Clear transitions between sections
    5. Actionable conclusion
    Style: Professional yet conversational (Flesch-Kincaid 60-70). Use markdown formatting".

Definition review_prompt (draft : string) : string :=
  "Critically review this blog content:
    - Clarity & Structure
    - Grammar & Style
    - SEO optimization
    - Reader engagement
    Provide specific improvement suggestions. Content:" ++ String Text.newline draft.

Definition evaluate_prompt (draft feedback : string) : string :=
  "Evaluate blog content against editorial feedback (Pass/Fail):
    Content: " ++ draft ++ "
    Feedback: " ++ feedback ++ "
    Answer only Pass or Fail:".

(** ** The node functions and the router *)

Section Nodes.

Variable llm : LLM.

Definition generate_title : M unit :=
  t <- get topic ;;
  response <- invoke llm (title_prompt t) ;;
  set_title (Text.strip Text.is_quote (Text.first_line response)).

Definition generate_content : M unit :=
  t <- get title ;;
  response <- invoke llm (content_prompt t) ;;
  append_blog_content (AIMessage response).

Definition review_content : M unit :=
  draft <- last_content blog_content ;;
  feedback <- invoke llm (review_prompt draft) ;;
  append_reviewed_content (HumanMessage feedback).

Definition evaluate_content : M unit :=
  draft <- last_content blog_content ;;
  feedback <- last_content reviewed_content ;;
  response <- invoke llm (evaluate_prompt draft feedback) ;;
  let verdict := Text.upper (Text.strip Text.is_space response) in
  set_is_blog_ready (if Text.contains "PASS" verdict then "Pass" else "Fail") ;;
  append_reviewed_content (AIMessage ("Verdict: " ++ response)).

End Nodes.

Definition route_based_on_verdict (s : BlogState) : string :=
  if String.eqb (is_blog_ready s) "Pass" then "Pass" else "Fail".

(** ** The graph of [init_graph] and its execution *)

Inductive node : Type :=
| START
| title_generator
| content_generator
| content_reviewer
| quality_check
| END.

Definition node_eqb (a b : node) : bool :=
  match a, b with
  | START, START
  | title_generator, title_generator
  | content_generator, content_generator
  | content_reviewer, content_reviewer
  | quality_check, quality_check
  | END, END => true
  | _, _ => false
  end.

Fixpoint lookup {K V : Type} (eqb : K -> K -> bool) (k : K) (l : list (K * V))
  : option V :=
  match l with
  | [] => None
  | (k', v) :: l' => if eqb k k' then Some v else lookup eqb k l'
  end.

(** What the builder collects: [add_node], [add_edge] and
    [add_conditional_edges] (source node, router, table from the router's
    answer to the next node). *)
Record StateGraph : Type := mkStateGraph {
  nodes : list (node * M unit);
  edges : list (node * node);
  conditional_edges : list (node * ((BlogState -> string) * list (string * node)))
}.

Definition init_graph (llm : LLM) : StateGraph :=
  {| nodes := [ (title_generator, generate_title llm);
                (content_generator, generate_content llm);
                (content_reviewer, review_content llm);
                (quality_check, evaluate_content llm) ];
     edges := [ (START, title_generator);
                (title_generator, content_generator);
                (content_generator, content_reviewer);
                (content_reviewer, quality_check) ];
     conditional_edges :=
       [ (quality_check,
          (route_based_on_verdict, [ ("Pass", END); ("Fail", content_generator) ])) ]
  |}.

(** The function of a node; [START] has none. *)
Definition run_node (g : StateGraph) (n : node) : M unit :=
  match lookup node_eqb n (nodes g) with
  | Some f => f
  | None => ret tt
  end.

(** The edge out of a node: the fixed one, or the one the router picks.  A
    node without an edge ends the run. *)
Definition next_node (g : StateGraph) (n : node) : M node :=
  match lookup node_eqb n (edges g) with
  | Some n' => ret n'
  | None =>
      match lookup node_eqb n (conditional_edges g) with
      | Some (path, path_map) =>
          answer <- get path ;;
          match lookup String.eqb answer path_map with
          | Some n' => ret n'
          | None => raise KeyError
          end
      | None => ret END
      end
  end.

Definition node_step (g : StateGraph) (n : node) : M node :=
  run_node g n ;; next_node g n.

Inductive outcome : Type :=
| Finished              (* the run reached [END] *)
| Pending (n : node).   (* the fuel ran out before node [n] *)

(** One node at a time, each to completion, until [END]; nothing is caught. *)
Fixpoint graph_invoke (g : StateGraph) (fuel : nat) (n : node) : M outcome :=
  match n with
  | END => ret Finished
  | _ =>
      match fuel with
      | O => ret (Pending n)
      | S fuel' => n' <- node_step g n ;; graph_invoke g fuel' n'
      end
  end.

(** The state a run starts from: [BlogState(topic=topic, title=..., ...)] with
    the empty title, the empty lists and the empty verdict. *)
Definition initial_state (topic : string) : BlogState :=
  mkBlogState topic "" [] [] "".

Definition initial_world (topic : string) : World :=
  mkWorld (initial_state topic) [].

Definition Run (llm : LLM) (fuel : nat) (topic : string) : res outcome * World :=
  graph_invoke (init_graph llm) fuel START (initial_world topic).

(** The same execution as a transition system. *)
Definition config : Type := (node * World)%type.

Inductive step (g : StateGraph) : config -> config -> Prop :=
| step_intro n w n' w' :
    n <> END ->
    node_step g n w = (Ret n', w') ->
    step g (n, w) (n', w').

Inductive aborts (g : StateGraph) : config -> exn -> World -> Prop :=
| aborts_intro n w e w' :
    n <> END ->
    node_step g n w = (Raise e, w') ->
    aborts g (n, w) e w'.

Inductive reachable (g : StateGraph) (c0 : config) : config -> Prop :=
| reach_start : reachable g c0 c0
| reach_step c c' : reachable g c0 c -> step g c c' -> reachable g c0 c'.

(** A model that answers the calls with the replies of a script, in order,
    whatever the prompt; [None] in the script, or its end, is a failed call. *)
Definition scripted (replies : list (option string)) : LLM :=
  fun i _ => nth i replies None.

(** The loop body, [n] times over. *)
Definition cycle (llm : LLM) : M unit :=
  generate_content llm ;; review_content llm ;; evaluate_content llm.

Fixpoint cycles (llm : LLM) (n : nat) : M unit :=
  match n with
  | O => ret tt
  | S n' => cycles llm n' ;; cycle llm
  end.


(** ** Definitions used by the statements *)

Definition with_title (s : BlogState) (t : string) : BlogState :=
  mkBlogState (topic s) t (blog_content s) (reviewed_content s) (is_blog_ready s).

Definition with_draft (s : BlogState) (m : Message) : BlogState :=
  mkBlogState (topic s) (title s) (blog_content s ++ [m]) (reviewed_content s)
              (is_blog_ready s).

Definition with_review (s : BlogState) (m : Message) : BlogState :=
  mkBlogState (topic s) (title s) (blog_content s) (reviewed_content s ++ [m])
              (is_blog_ready s).

Definition with_verdict (s : BlogState) (v : string) (m : Message) : BlogState :=
  mkBlogState (topic s) (title s) (blog_content s) (reviewed_content s ++ [m]) v.

(** The world after one more call with prompt [p] that left the state [s]. *)
Definition called (w : World) (s : BlogState) (p : string) : World :=
  mkWorld s (sent w ++ [p]).

Definition title_of (response : string) : string :=
  Text.strip Text.is_quote (Text.first_line response).

Definition verdict_of (response : string) : string :=
  if Text.contains "PASS" (Text.upper (Text.strip Text.is_space response))
  then "Pass" else "Fail".


(** What is known of the state once the title step has run. *)
Definition titled (llm : LLM) (topic0 : string) (s : BlogState) : Prop :=
  topic s = topic0 /\
  exists r0, llm 0 (title_prompt topic0) = Some r0 /\ title s = title_of r0.

(** The shape of the state at each node, with [k] the number of cycles
    completed before. *)
Inductive Inv (llm : LLM) (topic0 : string) : config -> Prop :=
| Inv_START : Inv llm topic0 (START, initial_world topic0)
| Inv_title : Inv llm topic0 (title_generator, initial_world topic0)
| Inv_content w k :
    titled llm topic0 (state w) ->
    length (blog_content (state w)) = k ->
    length (reviewed_content (state w)) = 2 * k ->
    length (sent w) = 1 + 3 * k ->
    Inv llm topic0 (content_generator, w)
| Inv_review w k :
    titled llm topic0 (state w) ->
    length (blog_content (state w)) = S k ->
    length (reviewed_content (state w)) = 2 * k ->
    length (sent w) = 2 + 3 * k ->
    Inv llm topic0 (content_reviewer, w)
| Inv_quality w k pre critique sent0 p :
    titled llm topic0 (state w) ->
    length (blog_content (state w)) = S k ->
    reviewed_content (state w) = (pre ++ [HumanMessage critique])%list ->
    length pre = 2 * k ->
    sent w = (sent0 ++ [p])%list ->
    length sent0 = 2 + 3 * k ->
    llm (length sent0) p = Some critique ->
    Inv llm topic0 (quality_check, w)
| Inv_END w k pre critique response sent0 q p :
    titled llm topic0 (state w) ->
    length (blog_content (state w)) = S k ->
    is_blog_ready (state w) = "Pass" ->
    reviewed_content (state w) =
      (pre ++ [HumanMessage critique; AIMessage ("Verdict: " ++ response)])%list ->
    length pre = 2 * k ->
    sent w = (sent0 ++ [q; p])%list ->
    length sent0 = 2 + 3 * k ->
    llm (length sent0) q = Some critique ->
    llm (S (length sent0)) p = Some response ->
    Inv llm topic0 (END, w).

(** [l1] is [l2] cut short: nothing of [l1] is dropped, changed or moved. *)
Definition prefix (l1 l2 : list Message) : Prop := exists k, l2 = (l1 ++ k)%list.

(** The two scripted services of the scenarios: a first verdict of FAIL and
    a second of PASS, and a service that fails on its second call. *)
Definition two_rounds : LLM :=
  scripted [ Some "Title One"; Some "Draft body"; Some "needs work"; Some "FAIL";
             Some "Revised body"; Some "looks good"; Some "PASS" ].

Definition fails_second : LLM := scripted [ Some "Title One"; None ].



(** The content node on the first pass and on the retry of [two_rounds]. *)
Definition first_pass : World :=
  mkWorld (mkBlogState "Testing" "Title One" [] [] "") [title_prompt "Testing"].

Definition on_retry : World :=
  mkWorld (mkBlogState "Testing" "Title One" [AIMessage "Draft body"]
             [HumanMessage "needs work"; AIMessage "Verdict: FAIL"] "Fail")
          [title_prompt "Testing"; content_prompt "Title One";
           review_prompt "Draft body"; evaluate_prompt "Draft body" "needs work"].

(** ** The page after a run, and the sidebar *)

(** What the page shows after [graph.invoke] has returned: the text of the
    last draft as the final post, and the text of the last review entry as
    the quality report. *)
Definition show_results : M (string * string) :=
  post <- last_content blog_content ;;
  report <- last_content reviewed_content ;;
  ret (post, report).

(** The status of the sidebar; the mark before each word is kept as its
    UTF-8 bytes. *)
Definition status_line (s : BlogState) : string :=
  if String.eqb (is_blog_ready s) "Pass" then "✅ Approved" else "❌ Needs Revision".

(** The count of the sidebar: [len(reviewed_content) - 1], a Python [int]. *)
Definition review_cycles (s : BlogState) : Z :=
  (Z.of_nat (length (reviewed_content s)) - 1)%Z.

(** ** More definitions used by the statements *)

Fixpoint all_chars (p : ascii -> bool) (s : string) : bool :=
  match s with
  | EmptyString => true
  | String c s' => p c && all_chars p s'
  end.

Definition first_char (s : string) : option ascii :=
  match s with
  | EmptyString => None
  | String c _ => Some c
  end.

Fixpoint last_char (s : string) : option ascii :=
  match s with
  | EmptyString => None
  | String c EmptyString => Some c
  | String _ s' => last_char s'
  end.

Definition not_newline (c : ascii) : bool := negb (Ascii.eqb c Text.newline).

(** The text that [evaluate_prompt] puts between the draft and the
    feedback. *)
Definition feedback_label : string := "
    Feedback: ".

(** The prompts of the rounds that the two histories record: for each draft
    the content prompt, then the review prompt if its critique is there, then
    the evaluation prompt if its verdict is there. *)
Fixpoint rounds (t : string) (drafts reviews : list Message) : list string :=
  match drafts with
  | [] => []
  | d :: ds =>
      content_prompt t ::
      match reviews with
      | [] => []
      | c :: reviews' =>
          review_prompt (content d) ::
          match reviews' with
          | [] => []
          | _ :: rs => evaluate_prompt (content d) (content c) :: rounds t ds rs
          end
      end
  end.

Definition expected_log (s : BlogState) : list string :=
  title_prompt (topic s) :: rounds (title s) (blog_content s) (reviewed_content s).

(** A review history made of rounds that did not pass: a critique, then the
    verdict message of a reply that the test of the evaluation step takes
    for a Fail. *)
Inductive failed_rounds : list Message -> Prop :=
| failed_none : failed_rounds []
| failed_more l c r :
    failed_rounds l ->
    verdict_of r = "Fail" ->
    failed_rounds (l ++ [HumanMessage c; AIMessage ("Verdict: " ++ r)])%list.

(** The verdict stored after the rounds [l]: none yet, or Fail. *)
Definition verdict_so_far (l : list Message) (v : string) : Prop :=
  (l = [] /\ v = "") \/ (l <> [] /\ v = "Fail").

(** The review history and the stored verdict at each node of a run. *)
Inductive Trail (topic0 : string) : config -> Prop :=
| Trail_START : Trail topic0 (START, initial_world topic0)
| Trail_title : Trail topic0 (title_generator, initial_world topic0)
| Trail_content w :
    failed_rounds (reviewed_content (state w)) ->
    verdict_so_far (reviewed_content (state w)) (is_blog_ready (state w)) ->
    Trail topic0 (content_generator, w)
| Trail_review w :
    failed_rounds (reviewed_content (state w)) ->
    verdict_so_far (reviewed_content (state w)) (is_blog_ready (state w)) ->
    Trail topic0 (content_reviewer, w)
| Trail_quality w l c :
    failed_rounds l ->
    reviewed_content (state w) = (l ++ [HumanMessage c])%list ->
    verdict_so_far l (is_blog_ready (state w)) ->
    Trail topic0 (quality_check, w)
| Trail_END w l c r :
    failed_rounds l ->
    verdict_of r = "Pass" ->
    reviewed_content (state w)
    = (l ++ [HumanMessage c; AIMessage ("Verdict: " ++ r)])%list ->
    is_blog_ready (state w) = "Pass" ->
    Trail topic0 (END, w).





(** A service whose one reply is two quoted titles on two lines. *)
Definition quoted_titles : LLM :=
  scripted [ Some (String Text.quote "Title One"
                   ++ String Text.quote (String Text.newline
                        (String Text.quote "Title Two" ++ String Text.quote ""))) ].

(** A service that opens its reply with a blank line. *)
Definition blank_first : LLM :=
  scripted [ Some (String Text.newline "Ten Ways To Test") ].

(** A reply whose first line ends with a blank after the closing quote. *)
Definition trailing_blank : LLM :=
  scripted [ Some ("1. " ++ String Text.quote "Title One" ++ String Text.quote " ") ].


(** ** What the caller of the graph gets *)

(** The graph stops in one of three ways: at END, by the failure of a node,
    or because the steps that the engine allows are used up.  The number of
    steps allowed is the library's (the graph is invoked without a
    configuration), and is the fuel of [graph_invoke] here, the pass through
    START counted as a step. *)
Inductive graph_error : Type :=
| NodeError (e : exn)
| GraphRecursionError.

(** [graph.invoke(state)] for its caller: the final state when the graph
    has reached END, and otherwise an exception and no state. *)
Inductive invoked : Type :=
| Returned (final_state : BlogState)
| Raised (e : graph_error).

Definition invoke_graph (llm : LLM) (limit : nat) (topic : string) : invoked :=
  match Run llm limit topic with
  | (Ret Finished, w) => Returned (state w)
  | (Ret (Pending _), _) => Raised GraphRecursionError
  | (Raise e, _) => Raised (NodeError e)
  end.

(** The state that the session holds after the click: the initial state is
    stored before the graph is invoked and is replaced by the final state
    only when the call returns.  The engine works on a state of its own and
    leaves the one it is given as it was. *)
Definition session_after (llm : LLM) (limit : nat) (topic : string) : BlogState :=
  match invoke_graph llm limit topic with
  | Returned final_state => final_state
  | Raised _ => initial_state topic
  end.

(** The prompt that the function of node [n] builds from the state [s], when
    it gets as far as calling the service. *)
Definition prompt_of (n : node) (s : BlogState) : option string :=
  match n with
  | title_generator => Some (title_prompt (topic s))
  | content_generator => Some (content_prompt (title s))
  | content_reviewer =>
      match last_item (blog_content s) with
      | Some d => Some (review_prompt (content d))
      | None => None
      end
  | quality_check =>
      match last_item (blog_content s), last_item (reviewed_content s) with
      | Some d, Some f => Some (evaluate_prompt (content d) (content f))
      | _, _ => None
      end
  | START | END => None
  end.

(** * Properties *)

(** ** The model on the scenarios *)

Example title_is_first_line_unquoted :
  title_of (String Text.quote "Title One" ++ String Text.quote (String Text.newline "Second option"))
  = "Title One".
Proof. reflexivity. Qed.

Example verdict_examples :
  verdict_of "PASS" = "Pass" /\ verdict_of " pass
" = "Pass" /\
  verdict_of "The draft passes." = "Pass" /\
  verdict_of "FAIL" = "Fail" /\ verdict_of "Fail" = "Fail" /\ verdict_of "" = "Fail".
Proof. repeat split. Qed.

(** Letters outside ASCII whose upper case holds an S make a Pass as well;
    the a with a half ring, whose upper case is an A followed by the half
    ring, does not. *)
Example verdict_special_cases :
  verdict_of "Fail (kein Spaß)" = "Pass" /\ verdict_of "paß" = "Pass" /\
  verdict_of "paſs" = "Pass" /\ verdict_of "pasﬆ" = "Pass" /\
  verdict_of "pẚss" = "Fail" /\ verdict_of "straße" = "Fail".
Proof. repeat split; vm_compute; reflexivity. Qed.

Example upper_special_cases :
  Text.upper "ẖẗẘẙẚ" = "H̱T̈W̊Y̊Aʾ" /\
  Text.upper "ﬀﬁﬂﬃﬄﬅﬆ" = "FFFIFLFFIFFLSTST" /\
  Text.upper "ıŉǰ" = "IʼNJ̌".
Proof. repeat split; vm_compute; reflexivity. Qed.

(** Title, Content, Review, Evaluate (Fail), Content, Review, Evaluate (Pass),
    END: two drafts, four review entries, verdict Pass. *)
Example run_two_rounds :
  Run two_rounds 8 "Testing"
  = (Ret Finished,
     mkWorld
       (mkBlogState "Testing" "Title One"
          [AIMessage "Draft body"; AIMessage "Revised body"]
          [HumanMessage "needs work"; AIMessage "Verdict: FAIL";
           HumanMessage "looks good"; AIMessage "Verdict: PASS"]
          "Pass")
       [title_prompt "Testing"; content_prompt "Title One";
        review_prompt "Draft body"; evaluate_prompt "Draft body" "needs work";
        content_prompt "Title One"; review_prompt "Revised body";
        evaluate_prompt "Revised body" "looks good"]).
Proof. vm_compute. reflexivity. Qed.

(** The service fails on the second call: the title is set, no draft. *)
Example run_fails_second :
  Run fails_second 8 "Testing"
  = (Raise ServiceError,
     mkWorld (mkBlogState "Testing" "Title One" [] [] "")
             [title_prompt "Testing"; content_prompt "Title One"]).
Proof. vm_compute. reflexivity. Qed.

(** An empty verdict reply is a Fail, and the loop goes on: after the five
    steps the fuel allows the run is back at the content node. *)
Example run_empty_verdict :
  fst (Run (scripted [Some "T"; Some "d1"; Some "r1"; Some ""]) 5 "Testing")
  = Ret (Pending content_generator).
Proof. vm_compute. reflexivity. Qed.

(** ** Facts about the text functions *)

Module TextFacts.
Import Text.

Lemma append_assoc (a b c : string) : (a ++ b) ++ c = a ++ (b ++ c).
Proof. induction a as [|x a IH]; simpl; [reflexivity | now rewrite IH]. Qed.

Lemma append_empty_r (a : string) : a ++ "" = a.
Proof. induction a as [|x a IH]; simpl; [reflexivity | now rewrite IH]. Qed.














Lemma all_chars_lstrip q p s :
  all_chars q s = true -> all_chars q (lstrip p s) = true.
Proof.
  induction s as [|c s IH]; [reflexivity|].
  intros H. simpl. destruct (p c); [|exact H].
  simpl in H. apply andb_true_iff in H. now apply IH.
Qed.

Lemma all_chars_rstrip q p s :
  all_chars q s = true -> all_chars q (rstrip p s) = true.
Proof.
  induction s as [|c s IH]; [reflexivity|].
  intros H. simpl in H. apply andb_true_iff in H. destruct H as [Hc Hs].
  simpl. specialize (IH Hs). destruct (rstrip p s) as [|y t].
  - destruct (p c); [reflexivity|]. simpl. now rewrite Hc.
  - change (q c && all_chars q (String y t) = true). now rewrite Hc, IH.
Qed.

(** *** The special cases of [upper] *)








Lemma startswith_append n t : startswith n (n ++ t) = true.
Proof.
  induction n as [|c n IH]; [reflexivity|].
  simpl. now rewrite Ascii.eqb_refl, IH.
Qed.







End TextFacts.

(** ** What one call of each node function does *)

Section NodeEquations.

Variable llm : LLM.

Lemma generate_title_eq w :
  let p := title_prompt (topic (state w)) in
  generate_title llm w =
  match llm (length (sent w)) p with
  | Some r => (Ret tt, called w (with_title (state w) (title_of r)) p)
  | None => (Raise ServiceError, called w (state w) p)
  end.
Proof.
  unfold generate_title, bind, get, invoke, set_title, modify. simpl.
  destruct (llm _ _); reflexivity.
Qed.

Lemma generate_content_eq w :
  let p := content_prompt (title (state w)) in
  generate_content llm w =
  match llm (length (sent w)) p with
  | Some r => (Ret tt, called w (with_draft (state w) (AIMessage r)) p)
  | None => (Raise ServiceError, called w (state w) p)
  end.
Proof.
  unfold generate_content, bind, get, invoke, append_blog_content, modify. simpl.
  destruct (llm _ _); reflexivity.
Qed.

Lemma review_content_eq w :
  review_content llm w =
  match last_item (blog_content (state w)) with
  | None => (Raise IndexError, w)
  | Some d =>
      let p := review_prompt (content d) in
      match llm (length (sent w)) p with
      | Some r => (Ret tt, called w (with_review (state w) (HumanMessage r)) p)
      | None => (Raise ServiceError, called w (state w) p)
      end
  end.
Proof.
  unfold review_content, last_content, bind, get, invoke, ret, raise,
    append_reviewed_content, modify. simpl.
  destruct (last_item _); [|reflexivity].
  destruct (llm _ _); reflexivity.
Qed.

Lemma evaluate_content_eq w :
  evaluate_content llm w =
  match last_item (blog_content (state w)),
        last_item (reviewed_content (state w)) with
  | Some d, Some f =>
      let p := evaluate_prompt (content d) (content f) in
      match llm (length (sent w)) p with
      | Some r =>
          (Ret tt,
           called w (with_verdict (state w) (verdict_of r)
                                  (AIMessage ("Verdict: " ++ r))) p)
      | None => (Raise ServiceError, called w (state w) p)
      end
  | _, _ => (Raise IndexError, w)
  end.
Proof.
  unfold evaluate_content, last_content, bind, get, invoke, ret, raise,
    set_is_blog_ready, append_reviewed_content, modify. simpl.
  destruct (last_item (blog_content _)); [|reflexivity].
  destruct (last_item (reviewed_content _)); [|reflexivity].
  destruct (llm _ _); reflexivity.
Qed.

Lemma verdict_of_Pass_or_Fail r : verdict_of r = "Pass" \/ verdict_of r = "Fail".
Proof. unfold verdict_of. destruct (Text.contains _ _); [now left | now right]. Qed.



Let g := init_graph llm.

Lemma node_step_START w : node_step g START w = (Ret title_generator, w).
Proof. reflexivity. Qed.

Lemma node_step_title w :
  node_step g title_generator w =
  match generate_title llm w with
  | (Ret _, w') => (Ret content_generator, w')
  | (Raise e, w') => (Raise e, w')
  end.
Proof.
  unfold node_step, bind, run_node. simpl.
  destruct (generate_title llm w) as [[[]|e] w']; reflexivity.
Qed.

Lemma node_step_content w :
  node_step g content_generator w =
  match generate_content llm w with
  | (Ret _, w') => (Ret content_reviewer, w')
  | (Raise e, w') => (Raise e, w')
  end.
Proof.
  unfold node_step, bind, run_node. simpl.
  destruct (generate_content llm w) as [[[]|e] w']; reflexivity.
Qed.

Lemma node_step_review w :
  node_step g content_reviewer w =
  match review_content llm w with
  | (Ret _, w') => (Ret quality_check, w')
  | (Raise e, w') => (Raise e, w')
  end.
Proof.
  unfold node_step, bind, run_node. simpl.
  destruct (review_content llm w) as [[[]|e] w']; reflexivity.
Qed.

Lemma node_step_quality w :
  node_step g quality_check w =
  match evaluate_content llm w with
  | (Ret _, w') =>
      (Ret (if String.eqb (is_blog_ready (state w')) "Pass"
            then END else content_generator), w')
  | (Raise e, w') => (Raise e, w')
  end.
Proof.
  unfold node_step, bind, run_node. simpl.
  destruct (evaluate_content llm w) as [[[]|e] w']; [|reflexivity].
  unfold next_node, bind, get. simpl. unfold route_based_on_verdict.
  destruct (String.eqb (is_blog_ready (state w')) "Pass"); reflexivity.
Qed.

End NodeEquations.

(** ** The engine and the transition system agree *)

Section Engine.

Variable g : StateGraph.

Lemma graph_invoke_S fuel n w :
  n <> END ->
  graph_invoke g (S fuel) n w =
  match node_step g n w with
  | (Ret n', w') => graph_invoke g fuel n' w'
  | (Raise e, w') => (Raise e, w')
  end.
Proof. intros Hn. destruct n; try reflexivity. now contradiction Hn. Qed.

Lemma graph_invoke_END fuel w : graph_invoke g fuel END w = (Ret Finished, w).
Proof. destruct fuel; reflexivity. Qed.

Lemma reachable_trans c0 c1 c2 :
  reachable g c0 c1 -> reachable g c1 c2 -> reachable g c0 c2.
Proof.
  intros H01 H12. induction H12 as [|c c' _ IH Hs]; [exact H01|].
  eapply reach_step; eassumption.
Qed.

Lemma reachable_front c0 c1 c2 :
  step g c0 c1 -> reachable g c1 c2 -> reachable g c0 c2.
Proof.
  intros Hs. apply reachable_trans.
  eapply reach_step; [apply reach_start | exact Hs].
Qed.

(** Whatever the engine returns was reached by steps of the system. *)
Lemma graph_invoke_sound fuel : forall n w r w',
  graph_invoke g fuel n w = (r, w') ->
  match r with
  | Ret Finished => reachable g (n, w) (END, w')
  | Ret (Pending n') => n' <> END /\ reachable g (n, w) (n', w')
  | Raise e => exists c, reachable g (n, w) c /\ aborts g c e w'
  end.
Proof.
  induction fuel as [|fuel IH]; intros n w r w' H.
  - destruct n; simpl in H; injection H as <- <-;
      first [ apply reach_start | split; [discriminate | apply reach_start] ].
  - destruct (node_eqb n END) eqn:En.
    + destruct n; try discriminate En.
      rewrite graph_invoke_END in H. injection H as <- <-. apply reach_start.
    + assert (Hn : n <> END) by (intros ->; discriminate En).
      rewrite (graph_invoke_S fuel n w Hn) in H.
      destruct (node_step g n w) as [[n1|e] w1] eqn:Es.
      * assert (Hs : step g (n, w) (n1, w1)) by (now constructor).
        specialize (IH n1 w1 r w' H).
        destruct r as [[|n']|e].
        -- eapply reachable_front; eassumption.
        -- destruct IH as [Hne IH]. split; [exact Hne|].
           eapply reachable_front; eassumption.
        -- destruct IH as (c & Hc & Ha). exists c. split; [|exact Ha].
           eapply reachable_front; eassumption.
      * injection H as <- <-. exists (n, w). split; [apply reach_start|].
        now constructor.
Qed.

(** A configuration reached by steps is where the engine gets to, given the
    fuel for those steps. *)
Lemma graph_invoke_complete n0 w0 n w :
  reachable g (n0, w0) (n, w) ->
  exists k, forall fuel,
    graph_invoke g (k + fuel) n0 w0 = graph_invoke g fuel n w.
Proof.
  intros H. remember (n0, w0) as c0 eqn:E0. remember (n, w) as c eqn:E.
  revert n w E. induction H as [|c1 c2 H IH Hs]; intros n w E.
  - subst c0. injection E as -> ->. now exists 0.
  - destruct Hs as [n1 w1 n2 w2 Hn Hs]. injection E as <- <-.
    destruct (IH n1 w1 eq_refl) as [k Hk].
    exists (S k). intros fuel.
    replace (S k + fuel) with (k + S fuel) by lia.
    rewrite Hk, (graph_invoke_S fuel n1 w1 Hn), Hs. reflexivity.
Qed.

Lemma graph_invoke_aborts n0 w0 c e w' :
  reachable g (n0, w0) c -> aborts g c e w' ->
  exists k, forall fuel,
    k <= fuel -> graph_invoke g fuel n0 w0 = (Raise e, w').
Proof.
  intros H Ha. destruct Ha as [n w e w' Hn Ha].
  destruct (graph_invoke_complete n0 w0 n w H) as [k Hk].
  exists (S k). intros fuel Hf.
  replace fuel with (k + S (fuel - S k)) by lia.
  rewrite Hk, (graph_invoke_S _ n w Hn), Ha. reflexivity.
Qed.

Lemma graph_invoke_finishes n0 w0 w' :
  reachable g (n0, w0) (END, w') ->
  exists k, forall fuel,
    k <= fuel -> graph_invoke g fuel n0 w0 = (Ret Finished, w').
Proof.
  intros H. destruct (graph_invoke_complete n0 w0 END w' H) as [k Hk].
  exists k. intros fuel Hf.
  replace fuel with (k + (fuel - k)) by lia.
  rewrite Hk. apply graph_invoke_END.
Qed.

End Engine.

(** ** The configurations a run goes through *)

Lemma last_item_snoc (l : list Message) (m : Message) :
  last_item (l ++ [m]) = Some m.
Proof.
  induction l as [|x l IH]; [reflexivity|].
  simpl. rewrite IH. now destruct (l ++ [m])%list eqn:E; [destruct l|].
Qed.

Lemma last_item_None (l : list Message) : last_item l = None <-> l = [].
Proof.
  split; [|now intros ->].
  induction l as [|x l IH]; [reflexivity|].
  simpl. destruct l; [discriminate|]. intros H. now apply IH in H.
Qed.

Lemma last_item_length (l : list Message) (k : nat) :
  length l = S k -> exists m, last_item l = Some m.
Proof.
  intros H. destruct (last_item l) as [m|] eqn:E; [now exists m|].
  apply last_item_None in E. subst l. discriminate H.
Qed.

Lemma Inv_step llm topic0 c c' :
  Inv llm topic0 c -> step (init_graph llm) c c' -> Inv llm topic0 c'.
Proof.
  intros HI Hs. destruct Hs as [n w n' w' Hn Hs].
  inversion HI as [ | | w0 k Ht Hb Hr Hc | w0 k Ht Hb Hr Hc
                  | w0 k pre critique sent0 p Ht Hb Hr Hp Hc Hl Hq
                  | w0 k pre critique response sent0 q p Ht Hb Hv Hr Hp Hc Hl Hq Hq' ];
    subst.
  - rewrite node_step_START in Hs. injection Hs as <- <-. constructor.
  - rewrite node_step_title, generate_title_eq in Hs. simpl in Hs.
    destruct (llm 0 _) as [r0|] eqn:E0; [|discriminate Hs].
    injection Hs as <- <-.
    apply Inv_content with (k := 0); try reflexivity.
    split; [reflexivity|]. now exists r0.
  - rewrite node_step_content, generate_content_eq in Hs. simpl in Hs.
    destruct (llm _ _) as [r|]; [|discriminate Hs].
    injection Hs as <- <-.
    apply Inv_review with (k := length (blog_content (state w))); simpl;
      rewrite ?length_app; simpl; try lia. assumption.
  - rewrite node_step_review, review_content_eq in Hs.
    destruct (last_item_length _ _ Hb) as [d Ed]. rewrite Ed in Hs. simpl in Hs.
    destruct (llm _ _) as [r|] eqn:Er; [|discriminate Hs].
    injection Hs as <- <-.
    eapply Inv_quality with (k := k) (pre := reviewed_content (state w));
      simpl; try reflexivity; try eassumption; lia.
  - rewrite node_step_quality, evaluate_content_eq in Hs.
    destruct (last_item_length _ _ Hb) as [d Ed]. rewrite Ed in Hs.
    rewrite Hr, last_item_snoc in Hs. simpl in Hs.
    destruct (llm _ _) as [r|] eqn:Er; [|discriminate Hs].
    simpl in Hs. injection Hs as <- <-.
    unfold verdict_of. destruct (Text.contains _ _); simpl.
    + eapply Inv_END with (k := k) (pre := pre) (sent0 := sent0);
        simpl; try reflexivity; try eassumption.
      * rewrite Hr, <- app_assoc. reflexivity.
      * rewrite Hc, <- app_assoc. reflexivity.
      * rewrite Hc, length_app, Nat.add_1_r in Er. exact Er.
    + apply Inv_content with (k := S k); simpl; try assumption.
      * rewrite Hr, !length_app. simpl. lia.
      * rewrite Hc, !length_app. simpl. lia.
  - now contradiction Hn.
Qed.

Lemma reachable_Inv llm topic0 c :
  reachable (init_graph llm) (START, initial_world topic0) c -> Inv llm topic0 c.
Proof.
  induction 1 as [|c c' _ IH Hs]; [constructor|].
  eapply Inv_step; eassumption.
Qed.

(** ** The claims *)

Lemma step_to_END llm n w w1 :
  step (init_graph llm) (n, w) (END, w1) ->
  n = quality_check /\ is_blog_ready (state w1) = "Pass".
Proof.
  intros H. inversion H as [n0 w0 n' w' Hn Hs]; subst.
  destruct n.
  - rewrite node_step_START in Hs. discriminate Hs.
  - rewrite node_step_title in Hs.
    destruct (generate_title llm w) as [[[]|e] w2]; discriminate Hs.
  - rewrite node_step_content in Hs.
    destruct (generate_content llm w) as [[[]|e] w2]; discriminate Hs.
  - rewrite node_step_review in Hs.
    destruct (review_content llm w) as [[[]|e] w2]; discriminate Hs.
  - rewrite node_step_quality in Hs.
    destruct (evaluate_content llm w) as [[[]|e] w2]; [|discriminate Hs].
    destruct (String.eqb (is_blog_ready (state w2)) "Pass") eqn:E;
      [|discriminate Hs].
    injection Hs as <-. split; [reflexivity | now apply String.eqb_eq].
  - now contradiction Hn.
Qed.

(** C1: a run that terminates normally reached END through the router's
    answer Pass: its final state has the verdict Pass, its last step left the
    evaluation node, and no step from any other node, or with any other
    answer of the router, leads to END. *)
Theorem C1_normal_exit_is_pass llm topic0 fuel w' :
  Run llm fuel topic0 = (Ret Finished, w') ->
  is_blog_ready (state w') = "Pass" /\
  route_based_on_verdict (state w') = "Pass" /\
  (exists w,
     reachable (init_graph llm) (START, initial_world topic0) (quality_check, w) /\
     step (init_graph llm) (quality_check, w) (END, w')) /\
  (forall n w w1,
     step (init_graph llm) (n, w) (END, w1) ->
     n = quality_check /\ route_based_on_verdict (state w1) = "Pass").
Proof.
  intros H. apply graph_invoke_sound in H.
  assert (Hno : forall n w w1,
             step (init_graph llm) (n, w) (END, w1) ->
             n = quality_check /\ route_based_on_verdict (state w1) = "Pass").
  { intros n w w1 Hs. destruct (step_to_END llm n w w1 Hs) as [-> Hv].
    split; [reflexivity|]. unfold route_based_on_verdict. now rewrite Hv. }
  inversion H as [E | c c' Hr Hs E]; subst.
  destruct c as [n w]. destruct (step_to_END llm n w w' Hs) as [-> Hv].
  split; [exact Hv|].
  split; [unfold route_based_on_verdict; now rewrite Hv|].
  split; [now exists w | exact Hno].
Qed.

Lemma C1_witness :
  Run two_rounds 8 "Testing" = (Ret Finished, snd (Run two_rounds 8 "Testing")) /\
  is_blog_ready (state (snd (Run two_rounds 8 "Testing"))) = "Pass".
Proof.
  split; [reflexivity|].
  apply (C1_normal_exit_is_pass two_rounds "Testing" 8). reflexivity.
Defined.




(** What a node function that returned has done to the state. *)
Lemma generate_content_ret llm w w' :
  generate_content llm w = (Ret tt, w') ->
  exists r, state w' = with_draft (state w) (AIMessage r).
Proof.
  rewrite generate_content_eq. cbv zeta.
  destruct (llm _ _) as [r|]; [|discriminate].
  intros H. injection H as <-. now exists r.
Qed.

Lemma review_content_ret llm w w' :
  review_content llm w = (Ret tt, w') ->
  exists r, state w' = with_review (state w) (HumanMessage r).
Proof.
  rewrite review_content_eq.
  destruct (last_item _) as [d|]; [|discriminate]. cbv zeta.
  destruct (llm _ _) as [r|]; [|discriminate].
  intros H. injection H as <-. now exists r.
Qed.

Lemma evaluate_content_ret llm w w' :
  evaluate_content llm w = (Ret tt, w') ->
  exists d f r,
    last_item (blog_content (state w)) = Some d /\
    last_item (reviewed_content (state w)) = Some f /\
    llm (length (sent w)) (evaluate_prompt (content d) (content f)) = Some r /\
    w' = called w (with_verdict (state w) (verdict_of r)
                                (AIMessage ("Verdict: " ++ r)))
                (evaluate_prompt (content d) (content f)).
Proof.
  rewrite evaluate_content_eq.
  destruct (last_item (blog_content _)) as [d|]; [|discriminate].
  destruct (last_item (reviewed_content _)) as [f|]; [|discriminate]. cbv zeta.
  destruct (llm _ _) as [r|] eqn:E; [|discriminate].
  intros H. injection H as <-. now exists d, f, r.
Qed.

Lemma cycle_lengths llm w w' :
  cycle llm w = (Ret tt, w') ->
  length (blog_content (state w')) = S (length (blog_content (state w))) /\
  length (reviewed_content (state w')) = 2 + length (reviewed_content (state w)).
Proof.
  unfold cycle, bind. intros H.
  destruct (generate_content llm w) as [[[]|e1] w1] eqn:E1; [|discriminate H].
  destruct (review_content llm w1) as [[[]|e2] w2] eqn:E2; [|discriminate H].
  apply generate_content_ret in E1. destruct E1 as [r1 E1].
  apply review_content_ret in E2. destruct E2 as [r2 E2].
  apply evaluate_content_ret in H. destruct H as (d & f & r3 & _ & _ & _ & ->).
  unfold called, with_verdict. cbn [state blog_content reviewed_content].
  rewrite E2. unfold with_review. cbn [blog_content reviewed_content].
  rewrite E1. unfold with_draft. cbn [blog_content reviewed_content].
  rewrite !length_app. simpl. lia.
Qed.

(** Case analysis on the reply to the call that appears in [H]. *)
Ltac reply_in H El :=
  match type of H with
  | context [match ?llm ?i ?p with Some _ => _ | None => _ end] =>
      destruct (llm i p) eqn:El
  end.

Lemma cycle_returns llm w :
  (forall i p, llm i p <> None) -> exists w', cycle llm w = (Ret tt, w').
Proof.
  intros Hl. unfold cycle, bind.
  destruct (generate_content llm w) as [[[]|e1] w1] eqn:E1.
  2:{ rewrite generate_content_eq in E1. cbv zeta in E1.
      reply_in E1 El; [discriminate E1 | now apply Hl in El]. }
  destruct (generate_content_ret _ _ _ E1) as [r1 S1].
  destruct (review_content llm w1) as [[[]|e2] w2] eqn:E2.
  2:{ rewrite review_content_eq, S1 in E2. unfold with_draft in E2.
      cbn [blog_content] in E2. rewrite last_item_snoc in E2. cbv zeta in E2.
      reply_in E2 El; [discriminate E2 | now apply Hl in El]. }
  destruct (review_content_ret _ _ _ E2) as [r2 S2].
  destruct (evaluate_content llm w2) as [[[]|e3] w3] eqn:E3; [now exists w3|].
  rewrite evaluate_content_eq, S2 in E3. unfold with_review in E3.
  cbn [blog_content reviewed_content] in E3. rewrite S1 in E3.
  unfold with_draft in E3. cbn [blog_content] in E3.
  rewrite !last_item_snoc in E3. cbv zeta in E3.
  reply_in E3 El; [discriminate E3 | now apply Hl in El].
Qed.

Lemma cycles_lengths llm N : forall w w',
  cycles llm N w = (Ret tt, w') ->
  length (blog_content (state w')) = N + length (blog_content (state w)) /\
  length (reviewed_content (state w')) = 2 * N + length (reviewed_content (state w)).
Proof.
  induction N as [|N IH]; intros w w' H.
  - injection H as <-. split; reflexivity.
  - simpl in H. unfold bind in H.
    destruct (cycles llm N w) as [[[]|e] w1] eqn:E; [|discriminate H].
    destruct (IH w w1 E) as [Hb Hr].
    destruct (cycle_lengths llm w1 w' H) as [Hb' Hr']. lia.
Qed.

Lemma cycles_return llm N w :
  (forall i p, llm i p <> None) -> exists w', cycles llm N w = (Ret tt, w').
Proof.
  intros Hl. induction N as [|N [w1 IH]].
  - now exists w.
  - simpl. unfold bind. rewrite IH. now apply cycle_returns.
Qed.

(** The loop body is the three steps of the graph from the content node. *)
Lemma cycle_steps llm w w' :
  cycle llm w = (Ret tt, w') ->
  exists n', reachable (init_graph llm) (content_generator, w) (n', w') /\
             (n' = END \/ n' = content_generator).
Proof.
  unfold cycle, bind. intros H.
  destruct (generate_content llm w) as [[[]|e1] w1] eqn:E1; [|discriminate H].
  destruct (review_content llm w1) as [[[]|e2] w2] eqn:E2; [|discriminate H].
  exists (if String.eqb (is_blog_ready (state w')) "Pass" then END else content_generator).
  split; [|destruct (String.eqb _ _); auto].
  apply reach_step with (c := (quality_check, w2)).
  - apply reach_step with (c := (content_reviewer, w1)).
    + apply reach_step with (c := (content_generator, w)); [apply reach_start|].
      constructor; [discriminate|]. rewrite node_step_content, E1. reflexivity.
    + constructor; [discriminate|]. rewrite node_step_review, E2. reflexivity.
  - constructor; [discriminate|]. rewrite node_step_quality, H.
    apply evaluate_content_ret in H. destruct H as (d & f & r & _ & _ & _ & ->).
    reflexivity.
Qed.

(** C3: from a state with empty histories, N completed cycles of the loop
    body leave exactly N drafts and 2N review entries; and with a service
    that answers every call the N cycles do complete. *)
Theorem C3_history_lengths llm w N :
  blog_content (state w) = [] ->
  reviewed_content (state w) = [] ->
  (forall w', cycles llm N w = (Ret tt, w') ->
     length (blog_content (state w')) = N /\
     length (reviewed_content (state w')) = 2 * N) /\
  ((forall i p, llm i p <> None) -> exists w', cycles llm N w = (Ret tt, w')).
Proof.
  intros Hb Hr. split.
  - intros w' H. apply cycles_lengths in H. rewrite Hb, Hr in H. simpl in H. lia.
  - intros Hl. now apply cycles_return.
Qed.

Lemma C3_witness :
  let w := mkWorld (mkBlogState "Testing" "Title One" [] [] "") ["title prompt"] in
  blog_content (state w) = [] /\ reviewed_content (state w) = [] /\
  cycles two_rounds 2 w = (Ret tt, snd (cycles two_rounds 2 w)) /\
  length (blog_content (state (snd (cycles two_rounds 2 w)))) = 2 /\
  length (reviewed_content (state (snd (cycles two_rounds 2 w)))) = 4.
Proof.
  intros w. repeat (split; [reflexivity|]).
  apply (proj1 (C3_history_lengths two_rounds w 2 eq_refl eq_refl)). reflexivity.
Defined.

(** C4 as stated fails: on the empty reply the title step returns normally. *)
Lemma C4_counterexample :
  ~ (scripted [Some ""] 0 (title_prompt "Testing") = Some "" ->
     exists e w',
       generate_title (scripted [Some ""]) (initial_world "Testing") = (Raise e, w')).
Proof.
  intros H. destruct (H eq_refl) as (e & w' & E).
  rewrite generate_title_eq in E. discriminate E.
Qed.

(** C4, amended: whatever the reply, the empty one included, the title step
    does not fail: it stores the first line of the reply without the double
    quotes around it, which for the empty reply is the empty title, and
    synthesizes nothing.  It fails only when the call itself fails, with the
    error of the service and the state untouched.  Either way it sends its
    prompt once. *)
Theorem C4_title_on_empty_reply llm w :
  let p := title_prompt (topic (state w)) in
  (forall r, llm (length (sent w)) p = Some r ->
   generate_title llm w = (Ret tt, called w (with_title (state w) (title_of r)) p)) /\
  (llm (length (sent w)) p = Some "" ->
   generate_title llm w = (Ret tt, called w (with_title (state w) "") p)) /\
  (llm (length (sent w)) p = None ->
   generate_title llm w = (Raise ServiceError, called w (state w) p)) /\
  (forall e w', generate_title llm w = (Raise e, w') ->
   llm (length (sent w)) p = None /\ e = ServiceError /\ state w' = state w) /\
  sent (snd (generate_title llm w)) = (sent w ++ [p])%list.
Proof.
  intros p. rewrite generate_title_eq. fold p.
  destruct (llm (length (sent w)) p) as [r|] eqn:E.
  - split; [intros r' H; injection H as <-; reflexivity|].
    split; [intros H; injection H as ->; reflexivity|].
    split; [discriminate|].
    split; [intros e w' H; discriminate H | reflexivity].
  - split; [discriminate|]. split; [discriminate|].
    split; [reflexivity|].
    split; [|reflexivity].
    intros e w' H. injection H as <- <-. now repeat split.
Qed.

Lemma C4_witness :
  (scripted [Some ""] 0 (title_prompt "Testing") = Some "" /\
   generate_title (scripted [Some ""]) (initial_world "Testing")
   = (Ret tt, mkWorld (mkBlogState "Testing" "" [] [] "") [title_prompt "Testing"])) /\
  (two_rounds 0 (title_prompt "Testing") = Some "Title One" /\
   generate_title two_rounds (initial_world "Testing")
   = (Ret tt, mkWorld (mkBlogState "Testing" "Title One" [] [] "")
                      [title_prompt "Testing"])) /\
  (scripted [None] 0 (title_prompt "Testing") = None /\
   generate_title (scripted [None]) (initial_world "Testing")
   = (Raise ServiceError, mkWorld (initial_state "Testing") [title_prompt "Testing"])).
Proof.
  split; [|split]; (split; [reflexivity|]).
  - apply (proj1 (proj2 (C4_title_on_empty_reply (scripted [Some ""])
                           (initial_world "Testing")))).
    reflexivity.
  - apply (proj1 (C4_title_on_empty_reply two_rounds (initial_world "Testing"))
             "Title One").
    reflexivity.
  - apply (proj1 (proj2 (proj2 (C4_title_on_empty_reply (scripted [None])
                                  (initial_world "Testing"))))).
    reflexivity.
Defined.

(** At a configuration of a run the only way a node fails is its call to
    the service, and the state is then as it was before the node. *)
Lemma aborts_in_run llm topic0 n w e w' :
  Inv llm topic0 (n, w) ->
  aborts (init_graph llm) (n, w) e w' ->
  e = ServiceError /\
  exists p, llm (length (sent w)) p = None /\ w' = called w (state w) p.
Proof.
  intros HI Ha. inversion Ha as [n0 w0 e0 w0' Hn Hs]; subst.
  inversion HI as [ | | w0 k Ht Hb Hr Hc | w0 k Ht Hb Hr Hc
                  | w0 k pre critique sent0 p Ht Hb Hr Hp Hc Hl Hq
                  | w0 k pre critique response sent0 q p Ht Hb Hv Hr Hp Hc Hl Hq Hq' ];
    subst.
  - rewrite node_step_START in Hs. discriminate Hs.
  - rewrite node_step_title, generate_title_eq in Hs. cbv zeta in Hs.
    reply_in Hs El; [discriminate Hs|]. injection Hs as <- <-. eauto.
  - rewrite node_step_content, generate_content_eq in Hs. cbv zeta in Hs.
    reply_in Hs El; [discriminate Hs|]. injection Hs as <- <-. eauto.
  - rewrite node_step_review, review_content_eq in Hs.
    destruct (last_item_length _ _ Hb) as [d Ed]. rewrite Ed in Hs. cbv zeta in Hs.
    reply_in Hs El; [discriminate Hs|]. injection Hs as <- <-. eauto.
  - rewrite node_step_quality, evaluate_content_eq in Hs.
    destruct (last_item_length _ _ Hb) as [d Ed]. rewrite Ed in Hs.
    rewrite Hr, last_item_snoc in Hs. cbv zeta in Hs.
    reply_in Hs El; [discriminate Hs|]. injection Hs as <- <-. eauto.
  - now contradiction Hn.
Qed.

(** The steps to a configuration: with fewer the engine is cut short on
    the way, and with more it goes on from there. *)
Lemma graph_invoke_threshold g n0 w0 n w :
  reachable g (n0, w0) (n, w) ->
  exists k,
    (forall fuel, graph_invoke g (k + fuel) n0 w0 = graph_invoke g fuel n w) /\
    (forall fuel, fuel < k ->
       exists n' w', graph_invoke g fuel n0 w0 = (Ret (Pending n'), w') /\ n' <> END).
Proof.
  intros H. remember (n0, w0) as c0 eqn:E0. remember (n, w) as c eqn:E.
  revert n w E. induction H as [|c1 c2 H IH Hs]; intros n w E.
  - subst c0. injection E as -> ->. exists 0. split; [reflexivity|].
    intros fuel Hf. lia.
  - destruct Hs as [n1 w1 n2 w2 Hn Hs]. injection E as <- <-.
    destruct (IH n1 w1 eq_refl) as (k & Hk & Hp).
    exists (S k). split.
    + intros fuel. replace (S k + fuel) with (k + S fuel) by lia.
      rewrite Hk, (graph_invoke_S g fuel n1 w1 Hn), Hs. reflexivity.
    + intros fuel Hf. destruct (Nat.eq_dec fuel k) as [->|Hne].
      * exists n1, w1. split; [|exact Hn].
        rewrite <- (Nat.add_0_r k), Hk. destruct n1; try reflexivity.
        now contradiction Hn.
      * apply Hp. lia.
Qed.

(** The function of a node whose call fails on its prompt raises the error
    of the service, with the state untouched and the prompt sent. *)
Lemma failed_call_raises llm n w p :
  prompt_of n (state w) = Some p ->
  llm (length (sent w)) p = None ->
  run_node (init_graph llm) n w = (Raise ServiceError, called w (state w) p).
Proof.
  intros Hp Hl. destruct n; try discriminate Hp;
    unfold run_node; cbn [lookup node_eqb nodes init_graph]; cbn [prompt_of] in Hp.
  - injection Hp as <-. rewrite generate_title_eq. cbv zeta. now rewrite Hl.
  - injection Hp as <-. rewrite generate_content_eq. cbv zeta. now rewrite Hl.
  - rewrite review_content_eq.
    destruct (last_item (blog_content (state w))) as [d|]; [|discriminate Hp].
    injection Hp as <-. cbv zeta. now rewrite Hl.
  - rewrite evaluate_content_eq.
    destruct (last_item (blog_content (state w))) as [d|]; [|discriminate Hp].
    destruct (last_item (reviewed_content (state w))) as [f|]; [|discriminate Hp].
    injection Hp as <-. cbv zeta. now rewrite Hl.
Qed.

(** C6: in a run, the review node finds a draft, the evaluation node finds
    a draft and a review, the router is handed a state with both, and so no
    node of a run fails on reading the last element of an empty list: the
    only failure is the service's. *)
Theorem C6_last_elements_exist llm topic0 n w :
  reachable (init_graph llm) (START, initial_world topic0) (n, w) ->
  (n = content_reviewer -> blog_content (state w) <> []) /\
  (n = quality_check ->
     blog_content (state w) <> [] /\ reviewed_content (state w) <> []) /\
  (forall n' w',
     n = quality_check -> step (init_graph llm) (n, w) (n', w') ->
     blog_content (state w') <> [] /\ reviewed_content (state w') <> []) /\
  (forall e w', aborts (init_graph llm) (n, w) e w' -> e = ServiceError).
Proof.
  intros Hr. pose proof (reachable_Inv _ _ _ Hr) as HI.
  split; [|split; [|split]].
  - intros ->. inversion HI as [ | | | w0 k Ht Hb Hv Hs | | ]; subst.
    intros E. rewrite E in Hb. discriminate Hb.
  - intros ->.
    inversion HI as [ | | | | w0 k pre critique sent0 q Ht Hb Hv Hp Hs Hl Hq | ]; subst.
    split; intros E.
    + rewrite E in Hb. discriminate Hb.
    + rewrite Hv in E. destruct pre; discriminate E.
  - intros n' w' -> Hs. inversion Hs as [n0 w0 n1 w1 Hn Hs']; subst.
    rewrite node_step_quality in Hs'.
    destruct (evaluate_content llm w) as [[[]|e] w2] eqn:E; [|discriminate Hs'].
    injection Hs' as _ <-.
    apply evaluate_content_ret in E. destruct E as (d & f & r & Hd & _ & _ & ->).
    cbn [called state with_verdict blog_content reviewed_content]. split.
    + intros E. rewrite E in Hd. discriminate Hd.
    + intros E. destruct (reviewed_content (state w)); discriminate E.
  - intros e w' Ha. now destruct (aborts_in_run llm topic0 n w e w' HI Ha).
Qed.

Lemma run_pending_reachable llm fuel topic0 n w :
  Run llm fuel topic0 = (Ret (Pending n), w) ->
  reachable (init_graph llm) (START, initial_world topic0) (n, w).
Proof. intros H. now apply graph_invoke_sound in H. Qed.

Lemma run_finished_reachable llm fuel topic0 w :
  Run llm fuel topic0 = (Ret Finished, w) ->
  reachable (init_graph llm) (START, initial_world topic0) (END, w).
Proof. intros H. now apply graph_invoke_sound in H. Qed.

Lemma C6_witness :
  blog_content (state (snd (Run two_rounds 4 "Testing"))) <> [] /\
  reviewed_content (state (snd (Run two_rounds 4 "Testing"))) <> [].
Proof.
  assert (Hr : reachable (init_graph two_rounds) (START, initial_world "Testing")
                 (quality_check, snd (Run two_rounds 4 "Testing"))).
  { apply run_pending_reachable with (fuel := 4). reflexivity. }
  exact (proj1 (proj2 (C6_last_elements_exist _ _ _ _ Hr)) eq_refl).
Defined.

Lemma prefix_refl l : prefix l l.
Proof. exists []. now rewrite app_nil_r. Qed.

Lemma prefix_snoc l m : prefix l (l ++ [m])%list.
Proof. now exists [m]. Qed.

Lemma prefix_trans l1 l2 l3 : prefix l1 l2 -> prefix l2 l3 -> prefix l1 l3.
Proof. intros [a ->] [b ->]. exists (a ++ b)%list. now rewrite app_assoc. Qed.

(** Choosing the next node reads the state and writes nothing. *)
Lemma next_node_pure g n w r w' : next_node g n w = (r, w') -> w' = w.
Proof.
  unfold next_node, bind, get, ret, raise.
  destruct (lookup node_eqb n (edges g)) as [n1|].
  - intros H. now injection H.
  - destruct (lookup node_eqb n (conditional_edges g)) as [[path path_map]|].
    + destruct (lookup String.eqb _ path_map); intros H; now injection H.
    + intros H. now injection H.
Qed.

Lemma node_step_world g n w n' w' :
  node_step g n w = (Ret n', w') -> w' = snd (run_node g n w).
Proof.
  unfold node_step, bind.
  destruct (run_node g n w) as [[[]|e] w1]; [|discriminate].
  intros H. now apply next_node_pure in H.
Qed.

Lemma run_node_grows llm n w :
  prefix (blog_content (state w))
         (blog_content (state (snd (run_node (init_graph llm) n w)))) /\
  prefix (reviewed_content (state w))
         (reviewed_content (state (snd (run_node (init_graph llm) n w)))).
Proof.
  destruct n; unfold run_node; cbn [lookup node_eqb nodes init_graph ret snd];
    try (split; apply prefix_refl).
  - rewrite generate_title_eq. cbv zeta.
    destruct (llm _ _); split; apply prefix_refl.
  - rewrite generate_content_eq. cbv zeta.
    destruct (llm _ _); split;
      first [ apply prefix_refl | apply prefix_snoc ].
  - rewrite review_content_eq.
    destruct (last_item _); [|split; apply prefix_refl]. cbv zeta.
    destruct (llm _ _); split;
      first [ apply prefix_refl | apply prefix_snoc ].
  - rewrite evaluate_content_eq.
    destruct (last_item (blog_content _)); [|split; apply prefix_refl].
    destruct (last_item (reviewed_content _)); [|split; apply prefix_refl].
    cbv zeta.
    destruct (llm _ _); split;
      first [ apply prefix_refl | apply prefix_snoc ].
Qed.

(** C7: every node function leaves each history with its old content as a
    prefix, whether it returns or fails, and so does every sequence of steps
    of the graph, retry cycles included. *)
Theorem C7_histories_append_only llm :
  (forall n w,
     prefix (blog_content (state w))
            (blog_content (state (snd (run_node (init_graph llm) n w)))) /\
     prefix (reviewed_content (state w))
            (reviewed_content (state (snd (run_node (init_graph llm) n w))))) /\
  (forall c c',
     reachable (init_graph llm) c c' ->
     prefix (blog_content (state (snd c))) (blog_content (state (snd c'))) /\
     prefix (reviewed_content (state (snd c))) (reviewed_content (state (snd c')))).
Proof.
  split; [apply run_node_grows|].
  intros c c' H. induction H as [|c1 c2 _ [IHb IHr] Hs].
  - split; apply prefix_refl.
  - destruct Hs as [n w n' w' _ Hs]. apply node_step_world in Hs. subst w'.
    destruct (run_node_grows llm n w) as [Hb Hr]. cbn [snd] in *.
    split; eapply prefix_trans; eassumption.
Qed.

Lemma C7_witness :
  prefix [AIMessage "Draft body"]
         (blog_content (state (snd (Run two_rounds 8 "Testing")))) /\
  prefix [HumanMessage "needs work"]
         (reviewed_content (state (snd (Run two_rounds 8 "Testing")))).
Proof.
  assert (H4 : reachable (init_graph two_rounds)
                 (quality_check, snd (Run two_rounds 4 "Testing"))
                 (END, snd (Run two_rounds 8 "Testing"))).
  { change (snd (Run two_rounds 8 "Testing"))
      with (snd (graph_invoke (init_graph two_rounds) 4 quality_check
                   (snd (Run two_rounds 4 "Testing")))).
    apply (graph_invoke_sound (init_graph two_rounds) 4 quality_check
             (snd (Run two_rounds 4 "Testing")) (Ret Finished)).
    reflexivity. }
  exact (proj2 (C7_histories_append_only two_rounds) _ _ H4).
Defined.

(** Along the steps of the graph the histories only grow. *)
Lemma histories_grow llm c c' :
  reachable (init_graph llm) c c' ->
  prefix (blog_content (state (snd c))) (blog_content (state (snd c'))) /\
  prefix (reviewed_content (state (snd c))) (reviewed_content (state (snd c'))).
Proof.
  intros H. induction H as [|c1 c2 _ [IHb IHr] Hs].
  - split; apply prefix_refl.
  - destruct Hs as [n w n' w' _ Hs]. apply node_step_world in Hs. subst w'.
    destruct (run_node_grows llm n w) as [Hb Hr]. cbn [snd] in *.
    split; eapply prefix_trans; eassumption.
Qed.

(** C5 as stated fails: the service fails on the second call, after the
    title step has returned with a title; the caller gets the error and no
    state, and the state of the session has the empty title. *)
Lemma C5_counterexample :
  fails_second 0 (title_prompt "Testing") = Some "Title One" /\
  fails_second 1 (content_prompt "Title One") = None /\
  invoke_graph fails_second 25 "Testing" = Raised (NodeError ServiceError) /\
  title (session_after fails_second 25 "Testing") = "".
Proof. repeat split; vm_compute; reflexivity. Qed.

(** C5, amended: when the call of a node fails at any point of a run, the
    node fails with the error of the service, having changed nothing of the
    state it was given and sent its prompt once.  Nothing is caught and
    nothing is retried: the run stops there, and the caller gets that error,
    unless the steps allowed were used up before, and then the error of the
    engine.  The caller gets no state: the state of the session stays the
    initial one, with the empty title and the empty histories.  The state
    that the failing node was given has every earlier append, each history
    of an earlier point of the run being a prefix of its own; when the
    failing call is the second one, the node is the content node, that state
    has the title of the first reply, which is in the prompt, and no draft. *)
Theorem C5_failed_call_aborts_run llm topic0 n w p :
  reachable (init_graph llm) (START, initial_world topic0) (n, w) ->
  prompt_of n (state w) = Some p ->
  llm (length (sent w)) p = None ->
  run_node (init_graph llm) n w = (Raise ServiceError, called w (state w) p) /\
  (exists k,
     (forall limit, k < limit ->
        invoke_graph llm limit topic0 = Raised (NodeError ServiceError)) /\
     (forall limit, limit <= k ->
        invoke_graph llm limit topic0 = Raised GraphRecursionError)) /\
  (forall limit, session_after llm limit topic0 = initial_state topic0) /\
  (forall n1 w1,
     reachable (init_graph llm) (START, initial_world topic0) (n1, w1) ->
     reachable (init_graph llm) (n1, w1) (n, w) ->
     prefix (blog_content (state w1)) (blog_content (state w)) /\
     prefix (reviewed_content (state w1)) (reviewed_content (state w))) /\
  (length (sent w) = 1 ->
     n = content_generator /\
     blog_content (state w) = [] /\
     exists r0, llm 0 (title_prompt topic0) = Some r0 /\
                title (state w) = title_of r0 /\
                p = content_prompt (title_of r0)).
Proof.
  intros Hr Hp Hl. pose proof (reachable_Inv _ _ _ Hr) as HI.
  pose proof (failed_call_raises llm n w p Hp Hl) as Hn.
  assert (Ne : n <> END) by (intros ->; discriminate Hp).
  assert (Hs : forall fuel,
             graph_invoke (init_graph llm) (S fuel) n w
             = (Raise ServiceError, called w (state w) p)).
  { intros fuel. rewrite (graph_invoke_S _ fuel n w Ne).
    unfold node_step, bind. now rewrite Hn. }
  destruct (graph_invoke_threshold _ _ _ _ _ Hr) as (k & Hk & Hb).
  assert (Hi : (forall limit, k < limit ->
                  invoke_graph llm limit topic0 = Raised (NodeError ServiceError)) /\
               (forall limit, limit <= k ->
                  invoke_graph llm limit topic0 = Raised GraphRecursionError)).
  { split; intros limit Hlim; unfold invoke_graph, Run.
    - replace limit with (k + S (limit - S k)) by lia.
      now rewrite Hk, Hs.
    - destruct (Nat.eq_dec limit k) as [->|Hne].
      + rewrite <- (Nat.add_0_r k), Hk.
        destruct n; try reflexivity. now contradiction Ne.
      + destruct (Hb limit) as (n' & w' & E & _); [lia|]. now rewrite E. }
  split; [exact Hn|]. split; [exists k; exact Hi|]. split; [|split].
  - intros limit. unfold session_after.
    destruct Hi as [H1 H2]. destruct (Nat.lt_ge_cases k limit) as [Hlt|Hge].
    + now rewrite H1.
    + now rewrite H2.
  - intros n1 w1 _ H1. exact (histories_grow llm _ _ H1).
  - intros H1.
    inversion HI as [ | | w0 j Ht Hb0 Hrv Hsn | w0 j Ht Hb0 Hrv Hsn
                    | w0 j pre critique sent0 q Ht Hb0 Hrv Hpr Hsn Hln Hq
                    | w0 j pre critique response sent0 q0 q Ht Hb0 Hv Hrv Hpr Hsn Hln Hq Hq' ];
      subst; try discriminate H1;
      try (rewrite Hsn, length_app in H1; simpl in H1); try lia.
    split; [reflexivity|]. split.
    + apply length_zero_iff_nil. lia.
    + destruct Ht as [_ (r0 & E0 & Et)]. exists r0.
      split; [exact E0|]. split; [exact Et|].
      cbn [prompt_of] in Hp. injection Hp as <-. now rewrite Et.
Qed.

Lemma C5_witness :
  run_node (init_graph fails_second) content_generator first_pass
  = (Raise ServiceError,
     called first_pass (state first_pass) (content_prompt "Title One")) /\
  session_after fails_second 25 "Testing" = initial_state "Testing".
Proof.
  assert (Hr : reachable (init_graph fails_second) (START, initial_world "Testing")
                 (content_generator, first_pass)).
  { apply reach_step with (c := (title_generator, initial_world "Testing")).
    - apply reach_step with (c := (START, initial_world "Testing")); [apply reach_start|].
      constructor; [discriminate | reflexivity].
    - constructor; [discriminate | reflexivity]. }
  destruct (C5_failed_call_aborts_run fails_second "Testing" content_generator
              first_pass (content_prompt "Title One") Hr eq_refl eq_refl)
    as (Hn & _ & Hs & _).
  split; [exact Hn | apply Hs].
Defined.

(** C8: two states with the same title make the content step send the same
    prompt, whatever their review histories (and whatever else differs); and
    on the same reply both append the same draft. *)
Theorem C8_content_prompt_ignores_reviews llm1 llm2 w1 w2 :
  title (state w1) = title (state w2) ->
  exists p,
    sent (snd (generate_content llm1 w1)) = (sent w1 ++ [p])%list /\
    sent (snd (generate_content llm2 w2)) = (sent w2 ++ [p])%list /\
    forall r,
      llm1 (length (sent w1)) p = Some r ->
      llm2 (length (sent w2)) p = Some r ->
      generate_content llm1 w1
      = (Ret tt, called w1 (with_draft (state w1) (AIMessage r)) p) /\
      generate_content llm2 w2
      = (Ret tt, called w2 (with_draft (state w2) (AIMessage r)) p).
Proof.
  intros Ht. exists (content_prompt (title (state w1))).
  rewrite !generate_content_eq. cbv zeta. rewrite <- Ht.
  split; [|split].
  - now destruct (llm1 _ _).
  - now destruct (llm2 _ _).
  - intros r -> ->. now split.
Qed.

Lemma C8_witness :
  reviewed_content (state first_pass) <> reviewed_content (state on_retry) /\
  exists p,
    sent (snd (generate_content two_rounds first_pass)) = (sent first_pass ++ [p])%list /\
    sent (snd (generate_content two_rounds on_retry)) = (sent on_retry ++ [p])%list.
Proof.
  split; [discriminate|].
  destruct (C8_content_prompt_ignores_reviews two_rounds two_rounds
              first_pass on_retry eq_refl) as (p & H1 & H2 & _).
  now exists p.
Defined.

Lemma run_node_frame llm n w :
  topic (state (snd (run_node (init_graph llm) n w))) = topic (state w) /\
  (n <> title_generator ->
   title (state (snd (run_node (init_graph llm) n w))) = title (state w)).
Proof.
  destruct n; unfold run_node; cbn [lookup node_eqb nodes init_graph ret snd];
    try (split; reflexivity).
  - rewrite generate_title_eq. cbv zeta.
    destruct (llm _ _); (split; [reflexivity|]); intros H; now contradiction H.
  - rewrite generate_content_eq. cbv zeta.
    destruct (llm _ _); split; reflexivity.
  - rewrite review_content_eq.
    destruct (last_item _); [|split; reflexivity]. cbv zeta.
    destruct (llm _ _); split; reflexivity.
  - rewrite evaluate_content_eq.
    destruct (last_item (blog_content _)); [|split; reflexivity].
    destruct (last_item (reviewed_content _)); [|split; reflexivity].
    cbv zeta.
    destruct (llm _ _); split; reflexivity.
Qed.

(** C9: no node function changes the topic, and none but the title step
    changes the title, whether it returns or fails.  In a run the topic is
    the one given; the title step is entered only in the initial state, before
    any call, where the title is empty; and from then on the title is the one
    the title step took from the first reply. *)
Theorem C9_topic_and_title_frame llm topic0 :
  (forall n w,
     topic (state (snd (run_node (init_graph llm) n w))) = topic (state w) /\
     (n <> title_generator ->
      title (state (snd (run_node (init_graph llm) n w))) = title (state w))) /\
  (forall n w,
     reachable (init_graph llm) (START, initial_world topic0) (n, w) ->
     topic (state w) = topic0 /\
     (n = START \/ n = title_generator ->
      w = initial_world topic0 /\ title (state w) = "") /\
     (n <> START -> n <> title_generator ->
      exists r0, llm 0 (title_prompt topic0) = Some r0 /\
                 title (state w) = title_of r0)).
Proof.
  split; [apply run_node_frame|].
  intros n w Hr. apply reachable_Inv in Hr.
  inversion Hr as [ | | w0 k [Ht Hr0] Hb Hv Hs | w0 k [Ht Hr0] Hb Hv Hs
                  | w0 k pre critique sent0 q [Ht Hr0] Hb Hv Hp Hs Hl Hq
                  | w0 k pre critique response sent0 q0 q [Ht Hr0] Hb Hv Hrv Hp Hs Hl Hq Hq' ];
    subst; (split; [first [reflexivity | exact Ht]|]); split;
    try (intros _; split; reflexivity);
    try (intros [H|H]; discriminate H);
    try (intros _ _; exact Hr0);
    try (intros H; now contradiction H);
    try (intros _ H; now contradiction H).
Qed.

Lemma C9_witness :
  topic (state (snd (Run two_rounds 8 "Testing"))) = "Testing" /\
  title (state (snd (Run two_rounds 8 "Testing"))) = "Title One".
Proof.
  assert (Hr : reachable (init_graph two_rounds) (START, initial_world "Testing")
                 (END, snd (Run two_rounds 8 "Testing"))).
  { apply run_finished_reachable with (fuel := 8). reflexivity. }
  destruct (proj2 (C9_topic_and_title_frame two_rounds "Testing") _ _ Hr)
    as (Ht & _ & Hl).
  split; [exact Ht|].
  destruct Hl as (r0 & E0 & El); [discriminate | discriminate |].
  rewrite El. injection E0 as <-. reflexivity.
Defined.

(** C10: when the evaluation step returns, the last review entry is the
    message Verdict: followed by the raw reply, put after what was the last
    entry before; at the end of a completed run the last two review entries
    are the critique replied to the review step and, last, that verdict
    message. *)
Theorem C10_verdict_entry_is_last llm topic0 :
  (forall w w',
     evaluate_content llm w = (Ret tt, w') ->
     exists d f r,
       last_item (reviewed_content (state w)) = Some f /\
       llm (length (sent w)) (evaluate_prompt (content d) (content f)) = Some r /\
       reviewed_content (state w')
       = (reviewed_content (state w) ++ [AIMessage ("Verdict: " ++ r)])%list /\
       last_item (reviewed_content (state w')) = Some (AIMessage ("Verdict: " ++ r))) /\
  (forall fuel w',
     Run llm fuel topic0 = (Ret Finished, w') ->
     exists pre critique r sent0 q p,
       reviewed_content (state w')
       = (pre ++ [HumanMessage critique; AIMessage ("Verdict: " ++ r)])%list /\
       last_item (reviewed_content (state w')) = Some (AIMessage ("Verdict: " ++ r)) /\
       sent w' = (sent0 ++ [q; p])%list /\
       llm (length sent0) q = Some critique /\
       llm (S (length sent0)) p = Some r).
Proof.
  split.
  - intros w w' H. apply evaluate_content_ret in H.
    destruct H as (d & f & r & _ & Hf & Hl & ->).
    exists d, f, r. cbn [called state with_verdict reviewed_content].
    repeat split; try assumption. apply last_item_snoc.
  - intros fuel w' H. apply run_finished_reachable, reachable_Inv in H.
    inversion H as [ | | | | | w0 k pre critique response sent0 q p Ht Hb Hv Hr Hp Hs Hl Hq Hq' ];
      subst.
    exists pre, critique, response, sent0, q, p.
    repeat split; try assumption.
    rewrite Hr.
    change (pre ++ [HumanMessage critique; AIMessage ("Verdict: " ++ response)])%list
      with (pre ++ [HumanMessage critique] ++ [AIMessage ("Verdict: " ++ response)])%list.
    rewrite app_assoc. apply last_item_snoc.
Qed.

Lemma C10_witness :
  Run two_rounds 8 "Testing" = (Ret Finished, snd (Run two_rounds 8 "Testing")) /\
  exists r,
    last_item (reviewed_content (state (snd (Run two_rounds 8 "Testing"))))
    = Some (AIMessage ("Verdict: " ++ r)).
Proof.
  assert (E : Run two_rounds 8 "Testing"
              = (Ret Finished, snd (Run two_rounds 8 "Testing"))) by reflexivity.
  split; [exact E|].
  destruct (proj2 (C10_verdict_entry_is_last two_rounds "Testing") 8 _ E)
    as (pre & critique & r & sent0 & q & p & _ & Hl & _).
  exists r. exact Hl.
Defined.

(** ** The title that the title step stores *)

Module TitleFacts.
Import Text.

Lemma first_line_no_newline s : all_chars not_newline (first_line s) = true.
Proof.
  induction s as [|c s IH]; [reflexivity|].
  simpl. destruct (Ascii.eqb c newline) eqn:E; [reflexivity|].
  simpl. unfold not_newline at 1. now rewrite E.
Qed.

Lemma lstrip_first p s c : first_char (lstrip p s) = Some c -> p c = false.
Proof.
  induction s as [|x s IH]; [discriminate|].
  simpl. destruct (p x) eqn:E; [exact IH|].
  intros H. injection H as <-. exact E.
Qed.

Lemma rstrip_first p s c :
  first_char (rstrip p s) = Some c -> first_char s = Some c.
Proof.
  destruct s as [|x s]; [discriminate|].
  simpl. destruct (rstrip p s); [destruct (p x)|]; simpl; congruence.
Qed.

Lemma rstrip_last p s c : last_char (rstrip p s) = Some c -> p c = false.
Proof.
  induction s as [|x s IH]; [discriminate|].
  simpl. destruct (rstrip p s) as [|y t].
  - destruct (p x) eqn:E; [discriminate|].
    intros H. injection H as <-. exact E.
  - intros H. apply IH. exact H.
Qed.

Lemma lstrip_all p s : all_chars p (lstrip p s) = all_chars p s.
Proof.
  induction s as [|c s IH]; [reflexivity|].
  simpl. destruct (p c) eqn:E; [exact IH|].
  simpl. now rewrite E.
Qed.

Lemma rstrip_empty p s : rstrip p s = "" <-> all_chars p s = true.
Proof.
  induction s as [|c s IH]; [now split|].
  simpl. destruct (rstrip p s) as [|y t].
  - destruct (p c); simpl.
    + split; [intros _; now apply IH | reflexivity].
    + split; discriminate.
  - split; [discriminate|].
    intros H. apply andb_true_iff in H. destruct H as [_ H].
    apply IH in H. discriminate H.
Qed.

Lemma strip_empty p s : strip p s = "" <-> all_chars p s = true.
Proof. unfold strip. now rewrite rstrip_empty, lstrip_all. Qed.

Lemma rstrip_id p s :
  (forall c, last_char s = Some c -> p c = false) -> rstrip p s = s.
Proof.
  induction s as [|c s IH]; [reflexivity|].
  intros H. simpl. destruct s as [|y t].
  - simpl. now rewrite (H c eq_refl).
  - rewrite IH; [reflexivity|]. intros x Hx. apply H. exact Hx.
Qed.

Lemma strip_id p s :
  (forall c, first_char s = Some c -> p c = false) ->
  (forall c, last_char s = Some c -> p c = false) ->
  strip p s = s.
Proof.
  intros Hf Hl. unfold strip.
  assert (E : lstrip p s = s).
  { destruct s as [|c s]; [reflexivity|]. simpl. now rewrite (Hf c eq_refl). }
  rewrite E. now apply rstrip_id.
Qed.

Lemma is_quote_false c : is_quote c = false <-> c <> quote.
Proof. unfold is_quote. apply Ascii.eqb_neq. Qed.

End TitleFacts.

Lemma generate_title_ret llm w w' :
  generate_title llm w = (Ret tt, w') ->
  exists r,
    llm (length (sent w)) (title_prompt (topic (state w))) = Some r /\
    w' = called w (with_title (state w) (title_of r))
                (title_prompt (topic (state w))).
Proof.
  rewrite generate_title_eq. cbv zeta.
  destruct (llm _ _) as [r|] eqn:E; [|discriminate].
  intros H. injection H as <-. now exists r.
Qed.

(** X1: the title that the title step stores is one line, and has no double
    quote at its start or at its end. *)
Theorem X1_title_shape llm w w' :
  generate_title llm w = (Ret tt, w') ->
  all_chars not_newline (title (state w')) = true /\
  first_char (title (state w')) <> Some Text.quote /\
  last_char (title (state w')) <> Some Text.quote.
Proof.
  intros H. apply generate_title_ret in H. destruct H as (r & _ & ->).
  cbn [called state with_title title]. unfold title_of, Text.strip.
  split; [|split].
  - apply TextFacts.all_chars_rstrip, TextFacts.all_chars_lstrip,
      TitleFacts.first_line_no_newline.
  - intros H. apply TitleFacts.rstrip_first, TitleFacts.lstrip_first in H.
    discriminate H.
  - intros H. apply TitleFacts.rstrip_last in H. discriminate H.
Qed.

Lemma X1_witness :
  exists w',
    generate_title quoted_titles (initial_world "Testing") = (Ret tt, w') /\
    title (state w') = "Title One" /\
    all_chars not_newline (title (state w')) = true.
Proof.
  eexists. split; [reflexivity|]. split; [reflexivity|].
  apply (X1_title_shape quoted_titles (initial_world "Testing")). reflexivity.
Defined.

(** X2: the stored title is empty exactly when the first line of the reply
    holds nothing but double quotes; a reply that starts with a blank line
    gives the empty title whatever follows. *)
Theorem X2_title_empty llm w r :
  llm (length (sent w)) (title_prompt (topic (state w))) = Some r ->
  exists w',
    generate_title llm w = (Ret tt, w') /\
    (title (state w') = "" <->
     all_chars Text.is_quote (Text.first_line r) = true) /\
    (first_char r = Some Text.newline -> title (state w') = "").
Proof.
  intros Hr. rewrite generate_title_eq. cbv zeta. rewrite Hr.
  eexists. split; [reflexivity|].
  cbn [called state with_title title]. unfold title_of.
  split; [apply TitleFacts.strip_empty|].
  intros H. destruct r as [|c r]; [discriminate H|].
  injection H as ->. reflexivity.
Qed.

Lemma X2_witness :
  exists w',
    generate_title blank_first (initial_world "Testing") = (Ret tt, w') /\
    title (state w') = "".
Proof.
  destruct (X2_title_empty blank_first (initial_world "Testing")
              (String Text.newline "Ten Ways To Test") eq_refl)
    as (w' & E & _ & H).
  exists w'. split; [exact E|]. apply H. reflexivity.
Defined.

(** X3: when the first line of the reply neither starts nor ends with a
    double quote, the stored title is that line as it is: quotes inside it
    and blanks around it are kept. *)
Theorem X3_title_verbatim llm w r :
  llm (length (sent w)) (title_prompt (topic (state w))) = Some r ->
  first_char (Text.first_line r) <> Some Text.quote ->
  last_char (Text.first_line r) <> Some Text.quote ->
  generate_title llm w
  = (Ret tt, called w (with_title (state w) (Text.first_line r))
                    (title_prompt (topic (state w)))).
Proof.
  intros Hr Hf Hl. rewrite generate_title_eq. cbv zeta. rewrite Hr.
  unfold title_of. rewrite TitleFacts.strip_id; [reflexivity| |].
  - intros c Hc. apply TitleFacts.is_quote_false. intros ->. now apply Hf.
  - intros c Hc. apply TitleFacts.is_quote_false. intros ->. now apply Hl.
Qed.

Lemma X3_witness :
  exists w',
    generate_title trailing_blank (initial_world "Testing") = (Ret tt, w') /\
    title (state w')
    = "1. " ++ String Text.quote "Title One" ++ String Text.quote " ".
Proof.
  eexists. split.
  - apply (X3_title_verbatim trailing_blank (initial_world "Testing")
             ("1. " ++ String Text.quote "Title One" ++ String Text.quote " ")
             eq_refl); discriminate.
  - reflexivity.
Defined.

(** ** The router and the branch table *)

(** X4: choosing the node after any node never fails and changes nothing,
    whatever the state holds; after the evaluation node it is END when the
    stored verdict is exactly Pass and the content node for every other
    stored text. *)
Theorem X4_router_total llm n w :
  exists n',
    next_node (init_graph llm) n w = (Ret n', w) /\
    (n = quality_check ->
     (is_blog_ready (state w) = "Pass" -> n' = END) /\
     (is_blog_ready (state w) <> "Pass" -> n' = content_generator)).
Proof.
  destruct n;
    try (eexists; split; [reflexivity | intros H; discriminate H]).
  unfold next_node, bind, get. simpl. unfold route_based_on_verdict.
  destruct (String.eqb_spec (is_blog_ready (state w)) "Pass") as [E|E].
  - exists END. split; [reflexivity|]. intros _. split; [reflexivity|].
    intros H. now contradiction H.
  - exists content_generator. split; [reflexivity|]. intros _.
    split; [intros H; now contradiction E | reflexivity].
Qed.

(** ** What the prompts tell apart *)

Module PromptFacts.

Lemma length_append (a b : string) :
  String.length (a ++ b) = String.length a + String.length b.
Proof. induction a as [|x a IH]; simpl; [reflexivity | now rewrite IH]. Qed.

Lemma append_inj_l (a x y : string) : a ++ x = a ++ y -> x = y.
Proof.
  induction a as [|c a IH]; simpl; [trivial|].
  intros H. injection H as H. now apply IH.
Qed.

Lemma append_inj_r (s : string) : forall x y, x ++ s = y ++ s -> x = y.
Proof.
  induction x as [|c x IH]; intros [|d y] H.
  - reflexivity.
  - apply (f_equal String.length) in H. simpl in H.
    rewrite length_append in H. lia.
  - apply (f_equal String.length) in H. simpl in H.
    rewrite length_append in H. lia.
  - simpl in H. injection H as -> H. f_equal. now apply IH.
Qed.

End PromptFacts.

(** X5: the title, content and review prompts each determine the text put
    into them: two topics, two titles or two drafts with the same prompt are
    the same. *)
Theorem X5_prompts_injective :
  (forall t1 t2, title_prompt t1 = title_prompt t2 -> t1 = t2) /\
  (forall t1 t2, content_prompt t1 = content_prompt t2 -> t1 = t2) /\
  (forall d1 d2, review_prompt d1 = review_prompt d2 -> d1 = d2).
Proof.
  split; [|split].
  - intros t1 t2 H. unfold title_prompt in H.
    apply PromptFacts.append_inj_l, PromptFacts.append_inj_r in H. exact H.
  - intros t1 t2 H. unfold content_prompt in H.
    apply PromptFacts.append_inj_l, PromptFacts.append_inj_r in H.
    now injection H.
  - intros d1 d2 H. unfold review_prompt in H.
    apply PromptFacts.append_inj_l in H. now injection H.
Qed.

(** X6: the evaluation prompt does not determine its draft and its feedback:
    a draft that holds the label set before the feedback gives the prompt of
    a shorter draft with a longer feedback. *)
Theorem X6_evaluate_prompt_collision a b c :
  evaluate_prompt (a ++ feedback_label ++ b) c
  = evaluate_prompt a (b ++ feedback_label ++ c) /\
  a ++ feedback_label ++ b <> a.
Proof.
  split.
  - unfold evaluate_prompt, feedback_label.
    rewrite !TextFacts.append_assoc. reflexivity.
  - intros H. apply (f_equal String.length) in H.
    rewrite !PromptFacts.length_append in H.
    change (String.length feedback_label) with 15 in H. lia.
Qed.

(** ** When a run ends *)







(** X9: a run that has ended normally has at least one draft, two review
    entries for each draft, and has made one call for the title and three
    for each draft. *)
Theorem X9_counts_of_a_finished_run llm topic0 fuel w' :
  Run llm fuel topic0 = (Ret Finished, w') ->
  1 <= length (blog_content (state w')) /\
  length (reviewed_content (state w')) = 2 * length (blog_content (state w')) /\
  length (sent w') = 1 + 3 * length (blog_content (state w')).
Proof.
  intros H. apply run_finished_reachable, reachable_Inv in H.
  inversion H as [ | | | | | w0 k pre critique response sent0 q p
                              Ht Hb Hv Hr Hp Hs Hl Hq Hq' ]; subst.
  rewrite Hb, Hr, Hs, !length_app. simpl. lia.
Qed.

Lemma X9_witness :
  length (reviewed_content (state (snd (Run two_rounds 8 "Testing")))) = 4 /\
  length (sent (snd (Run two_rounds 8 "Testing"))) = 7.
Proof.
  assert (E : Run two_rounds 8 "Testing"
              = (Ret Finished, snd (Run two_rounds 8 "Testing"))) by reflexivity.
  destruct (X9_counts_of_a_finished_run two_rounds "Testing" 8 _ E) as (_ & Hr & Hs).
  split; [exact Hr | exact Hs].
Defined.

(** ** The review history of a run *)

Lemma Trail_step llm topic0 c c' :
  Trail topic0 c -> step (init_graph llm) c c' -> Trail topic0 c'.
Proof.
  intros HT Hs. destruct Hs as [n w n' w' Hn Hs].
  inversion HT as [ | | w0 Hf Hv | w0 Hf Hv | w0 l c0 Hf Hr Hv
                  | w0 l c0 r Hf Hp Hr Hv ]; subst.
  - rewrite node_step_START in Hs. injection Hs as <- <-. constructor.
  - rewrite node_step_title, generate_title_eq in Hs. cbv zeta in Hs.
    reply_in Hs El; [|discriminate Hs]. injection Hs as <- <-.
    apply Trail_content; cbn [called state with_title reviewed_content is_blog_ready].
    + constructor.
    + left. now split.
  - rewrite node_step_content, generate_content_eq in Hs. cbv zeta in Hs.
    reply_in Hs El; [|discriminate Hs]. injection Hs as <- <-.
    now apply Trail_review.
  - rewrite node_step_review, review_content_eq in Hs.
    destruct (last_item (blog_content (state w))) as [d|]; [|discriminate Hs].
    cbv zeta in Hs. reply_in Hs El; [|discriminate Hs]. injection Hs as <- <-.
    eapply Trail_quality; [exact Hf | reflexivity | exact Hv].
  - rewrite node_step_quality, evaluate_content_eq in Hs.
    destruct (last_item (blog_content (state w))) as [d|]; [|discriminate Hs].
    rewrite Hr, last_item_snoc in Hs. cbv zeta in Hs.
    reply_in Hs El; [|discriminate Hs].
    cbn [called state with_verdict is_blog_ready] in Hs.
    destruct (verdict_of_Pass_or_Fail s) as [E|E]; pose proof E as E';
      rewrite E in Hs; injection Hs as <- <-.
    + eapply Trail_END with (l := l) (c := c0) (r := s); try assumption.
      * cbn [called state with_verdict reviewed_content].
        rewrite Hr, <- app_assoc. reflexivity.
      * reflexivity.
    + apply Trail_content; cbn [called state with_verdict reviewed_content is_blog_ready].
      * rewrite Hr, <- app_assoc. simpl. now constructor.
      * right. split; [|reflexivity]. intros H.
        destruct (reviewed_content (state w)); discriminate H.
  - now contradiction Hn.
Qed.

Lemma reachable_Trail llm topic0 c :
  reachable (init_graph llm) (START, initial_world topic0) c -> Trail topic0 c.
Proof.
  induction 1 as [|c c' _ IH Hs]; [constructor|].
  eapply Trail_step; eassumption.
Qed.

Lemma failed_rounds_length l : failed_rounds l -> l <> [] -> 2 <= length l.
Proof.
  intros H Hn. destruct H as [|l c r H N]; [now contradiction Hn|].
  rewrite length_app. simpl. lia.
Qed.

(** X10: the review history of a run that has ended normally is a sequence
    of rounds, each a critique followed by a verdict message; the replies
    kept in all the verdict messages but the last are ones that the test of
    the evaluation step takes for a Fail, and the last is one that it takes
    for a Pass. *)
Theorem X10_review_trail llm topic0 fuel w' :
  Run llm fuel topic0 = (Ret Finished, w') ->
  exists l c r,
    reviewed_content (state w')
    = (l ++ [HumanMessage c; AIMessage ("Verdict: " ++ r)])%list /\
    failed_rounds l /\ verdict_of r = "Pass".
Proof.
  intros H. apply run_finished_reachable, reachable_Trail in H.
  inversion H as [ | | | | | w0 l c r Hf Hp Hr Hv ]; subst.
  now exists l, c, r.
Qed.

Lemma X10_witness :
  exists l c r,
    reviewed_content (state (snd (Run two_rounds 8 "Testing")))
    = (l ++ [HumanMessage c; AIMessage ("Verdict: " ++ r)])%list /\
    failed_rounds l /\ verdict_of r = "Pass".
Proof.
  apply (X10_review_trail two_rounds "Testing" 8). reflexivity.
Defined.

(** X11: along a run the stored verdict is empty as long as no evaluation
    has been recorded, Fail from the first recorded evaluation on, and Pass
    only at END. *)
Theorem X11_stored_verdict llm topic0 n w :
  reachable (init_graph llm) (START, initial_world topic0) (n, w) ->
  (n = END -> is_blog_ready (state w) = "Pass") /\
  (n <> END ->
   (is_blog_ready (state w) = "" /\ length (reviewed_content (state w)) <= 1) \/
   (is_blog_ready (state w) = "Fail" /\ 2 <= length (reviewed_content (state w)))).
Proof.
  intros H. apply reachable_Trail in H.
  assert (V : forall l v, failed_rounds l -> verdict_so_far l v ->
              (v = "" /\ length l <= 1) \/ (v = "Fail" /\ 2 <= length l)).
  { intros l v Hf [[-> ->]|[Hn ->]].
    - left. split; [reflexivity | simpl; lia].
    - right. split; [reflexivity | now apply failed_rounds_length]. }
  inversion H as [ | | w0 Hf Hv | w0 Hf Hv | w0 l c0 Hf Hr Hv
                 | w0 l c0 r Hf Hp Hr Hv ]; subst;
    (split; [intros E; try discriminate E | intros Hne]).
  - left. split; [reflexivity | simpl; lia].
  - left. split; [reflexivity | simpl; lia].
  - now apply V.
  - now apply V.
  - rewrite Hr, length_app. simpl.
    destruct Hv as [[-> Ev]|[Hl Ev]].
    + left. split; [exact Ev | simpl; lia].
    + right. split; [exact Ev|].
      pose proof (failed_rounds_length l Hf Hl). lia.
  - exact Hv.
  - now contradiction Hne.
Qed.

Lemma X11_witness :
  is_blog_ready (state (snd (Run two_rounds 5 "Testing"))) = "Fail" /\
  2 <= length (reviewed_content (state (snd (Run two_rounds 5 "Testing")))).
Proof.
  assert (Hr : reachable (init_graph two_rounds) (START, initial_world "Testing")
                 (content_generator, snd (Run two_rounds 5 "Testing"))).
  { apply run_pending_reachable with (fuel := 5). reflexivity. }
  destruct (proj2 (X11_stored_verdict two_rounds "Testing" _ _ Hr))
    as [[E _]|[E L]]; [discriminate | discriminate E |].
  split; [exact E | exact L].
Defined.

(** ** The prompts of a run, read back from its state *)

Lemma rounds_app t ds : forall rs ds' rs',
  length rs = 2 * length ds ->
  rounds t (ds ++ ds') (rs ++ rs') = (rounds t ds rs ++ rounds t ds' rs')%list.
Proof.
  induction ds as [|d ds IH]; intros rs ds' rs' Hl.
  - destruct rs; [reflexivity | discriminate Hl].
  - destruct rs as [|c [|v rs]]; try (simpl in Hl; lia).
    cbn [rounds app]. rewrite IH; [reflexivity|]. simpl in Hl. lia.
Qed.

Lemma last_item_inv (l : list Message) (m : Message) :
  last_item l = Some m -> exists l0, l = (l0 ++ [m])%list.
Proof.
  induction l as [|x l IH]; [discriminate|].
  destruct l as [|y l].
  - intros H. injection H as ->. now exists [].
  - intros H. destruct (IH H) as [l0 E]. exists (x :: l0). simpl. now rewrite <- E.
Qed.

Lemma logged_step llm topic0 n w n' w' :
  Inv llm topic0 (n, w) ->
  (n <> START -> n <> title_generator -> sent w = expected_log (state w)) ->
  step (init_graph llm) (n, w) (n', w') ->
  n' <> START -> n' <> title_generator -> sent w' = expected_log (state w').
Proof.
  intros HI HL Hs N1 N2. inversion Hs as [n0 w0 n1 w1 Hn Hs']; subst.
  inversion HI as [ | | w0 k Ht Hb Hr Hc | w0 k Ht Hb Hr Hc
                  | w0 k pre critique sent0 p Ht Hb Hr Hp Hc Hl Hq
                  | w0 k pre critique response sent0 q p Ht Hb Hv Hr Hp Hc Hl Hq Hq' ];
    subst.
  - rewrite node_step_START in Hs'. injection Hs' as <- <-. now contradiction N2.
  - rewrite node_step_title, generate_title_eq in Hs'. cbv zeta in Hs'.
    reply_in Hs' El; [|discriminate Hs']. injection Hs' as <- <-. reflexivity.
  - rewrite node_step_content, generate_content_eq in Hs'. cbv zeta in Hs'.
    reply_in Hs' El; [|discriminate Hs']. injection Hs' as <- <-.
    unfold expected_log, called, with_draft.
    cbn [state sent topic title blog_content reviewed_content].
    rewrite HL by discriminate. unfold expected_log.
    rewrite <- (app_nil_r (reviewed_content (state w))) at 2.
    rewrite rounds_app by lia. reflexivity.
  - rewrite node_step_review, review_content_eq in Hs'.
    destruct (last_item (blog_content (state w))) as [d|] eqn:Ed; [|discriminate Hs'].
    cbv zeta in Hs'. reply_in Hs' El; [|discriminate Hs']. injection Hs' as <- <-.
    destruct (last_item_inv _ _ Ed) as [ds Eds].
    unfold expected_log, called, with_review.
    cbn [state sent topic title blog_content reviewed_content].
    rewrite HL by discriminate. unfold expected_log.
    assert (Hk : length (reviewed_content (state w)) = 2 * length ds).
    { rewrite Eds, length_app in Hb. simpl in Hb. lia. }
    rewrite Eds.
    rewrite <- (app_nil_r (reviewed_content (state w))) at 1.
    rewrite !rounds_app by exact Hk.
    cbn [rounds app]. rewrite <- app_assoc. reflexivity.
  - rewrite node_step_quality, evaluate_content_eq in Hs'.
    destruct (last_item (blog_content (state w))) as [d|] eqn:Ed; [|discriminate Hs'].
    rewrite Hr, last_item_snoc in Hs'. cbv zeta in Hs'.
    reply_in Hs' El; [|discriminate Hs'].
    assert (Ew : w' = called w (with_verdict (state w) (verdict_of s)
                                  (AIMessage ("Verdict: " ++ s)))
                         (evaluate_prompt (content d) (content (HumanMessage critique)))).
    { now injection Hs'. }
    subst w'. clear Hs'.
    destruct (last_item_inv _ _ Ed) as [ds Eds].
    unfold expected_log, called, with_verdict.
    cbn [state sent topic title blog_content reviewed_content].
    rewrite HL by discriminate. unfold expected_log.
    assert (Hk : length pre = 2 * length ds).
    { rewrite Eds, length_app in Hb. simpl in Hb. lia. }
    rewrite Eds, Hr, <- app_assoc.
    rewrite !rounds_app by exact Hk.
    cbn [rounds app content]. rewrite <- app_assoc. reflexivity.
  - now contradiction Hn.
Qed.

(** X12: once the title step has run, the prompts sent so far are the ones
    that the state records: the title prompt of the topic, then for each
    draft the same content prompt of the title, the review prompt of that
    draft, and the evaluation prompt of that draft and its critique. *)
Theorem X12_log_from_state llm topic0 n w :
  reachable (init_graph llm) (START, initial_world topic0) (n, w) ->
  n <> START -> n <> title_generator ->
  sent w = expected_log (state w).
Proof.
  intros H. remember (n, w) as c eqn:E. revert n w E.
  induction H as [|c1 c2 Hr IH Hs]; intros n w E N1 N2.
  - injection E as <- <-. now contradiction N1.
  - subst c2. destruct c1 as [n1 w1].
    apply (logged_step llm topic0 n1 w1 n w); try assumption.
    + now apply reachable_Inv.
    + intros M1 M2. now apply (IH n1 w1).
Qed.

Lemma X12_witness :
  sent (snd (Run two_rounds 8 "Testing"))
  = [ title_prompt "Testing";
      content_prompt "Title One"; review_prompt "Draft body";
      evaluate_prompt "Draft body" "needs work";
      content_prompt "Title One"; review_prompt "Revised body";
      evaluate_prompt "Revised body" "looks good" ].
Proof.
  assert (Hr : reachable (init_graph two_rounds) (START, initial_world "Testing")
                 (END, snd (Run two_rounds 8 "Testing"))).
  { apply run_finished_reachable with (fuel := 8). reflexivity. }
  rewrite (X12_log_from_state two_rounds "Testing" END _ Hr); [|discriminate|discriminate].
  reflexivity.
Defined.

(** ** What the page shows after a run *)

Lemma step_to_quality llm n w w1 :
  step (init_graph llm) (n, w) (quality_check, w1) ->
  n = content_reviewer /\ review_content llm w = (Ret tt, w1).
Proof.
  intros H. inversion H as [n0 w0 n' w' Hn Hs]; subst.
  destruct n.
  - rewrite node_step_START in Hs. discriminate Hs.
  - rewrite node_step_title in Hs.
    destruct (generate_title llm w) as [[[]|e] w2]; discriminate Hs.
  - rewrite node_step_content in Hs.
    destruct (generate_content llm w) as [[[]|e] w2]; discriminate Hs.
  - rewrite node_step_review in Hs.
    destruct (review_content llm w) as [[[]|e] w2]; [|discriminate Hs].
    injection Hs as <-. now split.
  - rewrite node_step_quality in Hs.
    destruct (evaluate_content llm w) as [[[]|e] w2]; [|discriminate Hs].
    destruct (String.eqb _ _); discriminate Hs.
  - now contradiction Hn.
Qed.

Lemma step_to_reviewer llm n w w1 :
  step (init_graph llm) (n, w) (content_reviewer, w1) ->
  n = content_generator /\ generate_content llm w = (Ret tt, w1).
Proof.
  intros H. inversion H as [n0 w0 n' w' Hn Hs]; subst.
  destruct n.
  - rewrite node_step_START in Hs. discriminate Hs.
  - rewrite node_step_title in Hs.
    destruct (generate_title llm w) as [[[]|e] w2]; discriminate Hs.
  - rewrite node_step_content in Hs.
    destruct (generate_content llm w) as [[[]|e] w2]; [|discriminate Hs].
    injection Hs as <-. now split.
  - rewrite node_step_review in Hs.
    destruct (review_content llm w) as [[[]|e] w2]; discriminate Hs.
  - rewrite node_step_quality in Hs.
    destruct (evaluate_content llm w) as [[[]|e] w2]; [|discriminate Hs].
    destruct (String.eqb _ _); discriminate Hs.
  - now contradiction Hn.
Qed.

Lemma step_from_quality llm w n1 w1 :
  step (init_graph llm) (quality_check, w) (n1, w1) ->
  evaluate_content llm w = (Ret tt, w1).
Proof.
  intros H. inversion H as [n0 w0 n' w' Hn Hs]; subst.
  rewrite node_step_quality in Hs.
  destruct (evaluate_content llm w) as [[[]|e] w2]; [|discriminate Hs].
  now injection Hs as _ <-.
Qed.

(** X13: after a run that has ended normally the page is shown without a
    failure.  The final post is the reply to the last content call; the
    report is the word Verdict: followed by the reply to the last call, which
    the test of the evaluation step takes for a Pass and which was asked
    about that very post and the critique of it. *)
Theorem X13_report_of_a_finished_run llm topic0 fuel w' :
  Run llm fuel topic0 = (Ret Finished, w') ->
  exists sent0 d c r,
    sent w' = (sent0 ++ [ content_prompt (title (state w'));
                          review_prompt d; evaluate_prompt d c ])%list /\
    llm (length sent0) (content_prompt (title (state w'))) = Some d /\
    llm (1 + length sent0) (review_prompt d) = Some c /\
    llm (2 + length sent0) (evaluate_prompt d c) = Some r /\
    verdict_of r = "Pass" /\
    show_results w' = (Ret (d, "Verdict: " ++ r), w').
Proof.
  intros H. apply run_finished_reachable in H.
  inversion H as [E0 | c3 c' R3 S3 E0]; subst. destruct c3 as [n3 w3].
  destruct (step_to_END llm n3 w3 w' S3) as [-> Hv].
  apply step_from_quality in S3.
  inversion R3 as [E0 | c2 c' R2 S2 E0]; subst. destruct c2 as [n2 w2].
  destruct (step_to_quality llm n2 w2 w3 S2) as [-> Er].
  inversion R2 as [E0 | c1 c' R1 S1 E0]; subst. destruct c1 as [n1 w1].
  destruct (step_to_reviewer llm n1 w1 w2 S1) as [-> Eg].
  clear H R3 R2 S2 S1.
  rewrite generate_content_eq in Eg. cbv zeta in Eg.
  destruct (llm (length (sent w1)) (content_prompt (title (state w1))))
    as [d|] eqn:Ld; [|discriminate Eg].
  injection Eg as <-.
  rewrite review_content_eq in Er.
  cbn [called state with_draft blog_content sent] in Er.
  rewrite last_item_snoc in Er. cbv zeta in Er. cbn [content] in Er.
  destruct (llm (length (sent w1 ++ [content_prompt (title (state w1))]))
              (review_prompt d)) as [c|] eqn:Lc; [|discriminate Er].
  injection Er as <-.
  rewrite evaluate_content_eq in S3.
  cbn [called state with_draft with_review blog_content reviewed_content sent] in S3.
  rewrite !last_item_snoc in S3. cbv zeta in S3. cbn [content] in S3.
  destruct (llm (length ((sent w1 ++ [content_prompt (title (state w1))])
                         ++ [review_prompt d]))
              (evaluate_prompt d c)) as [r|] eqn:Lr; [|discriminate S3].
  injection S3 as <-.
  cbn [called state with_verdict is_blog_ready] in Hv.
  exists (sent w1), d, c, r.
  cbn [called state sent with_verdict with_review with_draft title].
  assert (I1 : length (sent w1 ++ [content_prompt (title (state w1))])
               = 1 + length (sent w1)) by (rewrite length_app; simpl; lia).
  assert (I2 : length ((sent w1 ++ [content_prompt (title (state w1))])
                       ++ [review_prompt d])
               = 2 + length (sent w1)) by (rewrite !length_app; simpl; lia).
  rewrite I1 in Lc. rewrite I2 in Lr.
  split; [|split; [exact Ld|split; [exact Lc|split; [exact Lr|split]]]].
  - rewrite <- !app_assoc. reflexivity.
  - exact Hv.
  - unfold show_results, last_content, bind, get, ret.
    unfold called, with_verdict, with_review, with_draft.
    cbn [state blog_content reviewed_content].
    rewrite last_item_snoc. cbv beta iota.
    cbn [state reviewed_content]. rewrite last_item_snoc. reflexivity.
Qed.

Lemma X13_witness :
  exists r,
    show_results (snd (Run two_rounds 8 "Testing"))
    = (Ret ("Revised body", "Verdict: " ++ r), snd (Run two_rounds 8 "Testing")) /\
    verdict_of r = "Pass".
Proof.
  assert (E : Run two_rounds 8 "Testing"
              = (Ret Finished, snd (Run two_rounds 8 "Testing"))) by reflexivity.
  destruct (X13_report_of_a_finished_run two_rounds "Testing" 8 _ E)
    as (sent0 & d & c & r & _ & _ & _ & _ & Y & S).
  exists r. split; [|exact Y].
  rewrite S. f_equal. f_equal.
  assert (Hd : fst (show_results (snd (Run two_rounds 8 "Testing")))
               = Ret ("Revised body", "Verdict: PASS")) by reflexivity.
  rewrite S in Hd. now injection Hd as -> _.
Defined.

(** X14: after a run that has ended normally the sidebar shows the status
    Approved, and as review cycles one less than twice the number of drafts:
    the number of rounds only when the first round passed. *)
Theorem X14_sidebar_of_a_finished_run llm topic0 fuel w' :
  Run llm fuel topic0 = (Ret Finished, w') ->
  status_line (state w') = "✅ Approved" /\
  review_cycles (state w')
  = (2 * Z.of_nat (length (blog_content (state w'))) - 1)%Z /\
  (review_cycles (state w') = Z.of_nat (length (blog_content (state w')))
   <-> length (blog_content (state w')) = 1).
Proof.
  intros H. apply run_finished_reachable, reachable_Inv in H.
  inversion H as [ | | | | | w0 k pre critique response sent0 q p
                              Ht Hb Hv Hr Hp Hs Hl Hq Hq' ]; subst.
  unfold status_line, review_cycles. rewrite Hv, Hb, Hr, length_app, Hp.
  simpl length. split; [reflexivity|]. split; [lia|]. split; intros E; lia.
Qed.

Lemma X14_witness :
  review_cycles (state (snd (Run two_rounds 8 "Testing"))) = 3%Z /\
  length (blog_content (state (snd (Run two_rounds 8 "Testing")))) = 2.
Proof.
  assert (E : Run two_rounds 8 "Testing"
              = (Ret Finished, snd (Run two_rounds 8 "Testing"))) by reflexivity.
  destruct (X14_sidebar_of_a_finished_run two_rounds "Testing" 8 _ E) as (_ & Hc & _).
  split; [|reflexivity]. rewrite Hc. reflexivity.
Defined.

(** ** The node functions outside a run *)

(** X15: called on a state without a draft, the review step and the
    evaluation step fail with IndexError before any call to the service: no
    prompt is sent and the state is untouched.  The evaluation step does the
    same on a state without a review entry, and so does the display of the
    results on a state that lacks either. *)
Theorem X15_reads_of_empty_histories llm w :
  (blog_content (state w) = [] ->
   review_content llm w = (Raise IndexError, w) /\
   evaluate_content llm w = (Raise IndexError, w) /\
   show_results w = (Raise IndexError, w)) /\
  (reviewed_content (state w) = [] ->
   evaluate_content llm w = (Raise IndexError, w) /\
   show_results w = (Raise IndexError, w)).
Proof.
  split; intros E.
  - rewrite review_content_eq, evaluate_content_eq.
    unfold show_results, last_content, bind, get. rewrite E. now repeat split.
  - rewrite evaluate_content_eq, E.
    unfold show_results, last_content, bind, get, ret, raise.
    destruct (last_item (blog_content (state w))); cbv beta iota;
      rewrite ?E; split; reflexivity.
Qed.

Lemma X15_witness :
  review_content two_rounds (initial_world "Testing")
  = (Raise IndexError, initial_world "Testing") /\
  evaluate_content two_rounds first_pass = (Raise IndexError, first_pass).
Proof.
  split.
  - apply (proj1 (X15_reads_of_empty_histories two_rounds (initial_world "Testing"))).
    reflexivity.
  - apply (proj2 (X15_reads_of_empty_histories two_rounds first_pass)).
    reflexivity.
Defined.
